(** * StudySphere client (frontend/src/App.js): a shallow embedding

    The React components of [App.js] are embedded as state records (one field
    per [useState] cell or ref) and their event handlers as functions on
    those records.  A handler that calls [socket.emit] returns, next to the
    new state, the list of events it emitted, in order.

    JavaScript strings are Rocq strings whose characters are code units below
    256; JavaScript numbers are IEEE 754 binary64 values ([float]). *)

From Stdlib Require Import ZArith Ascii String Floats.
From stdpp Require Import base strings list gmap.

Local Open Scope string_scope.
Local Open Scope list_scope.

(** ** The part of the JavaScript runtime the client relies on *)

Module JS.

(** [WhiteSpace] and [LineTerminator] of ECMAScript among the code units
    below 256: TAB, LF, VT, FF, CR, SP and NBSP. *)
Definition isWhiteSpace (c : ascii) : bool :=
  let n := N_of_ascii c in
  ((9 <=? n) && (n <=? 13) || (n =? 32) || (n =? 160))%N.

(** [String.prototype.trimStart] *)
Fixpoint trimStart (s : string) : string :=
  match s with
  | EmptyString => EmptyString
  | String c s' => if isWhiteSpace c then trimStart s' else s
  end.

(** [String.prototype.trimEnd] *)
Fixpoint trimEnd (s : string) : string :=
  match s with
  | EmptyString => EmptyString
  | String c s' =>
      match trimEnd s' with
      | EmptyString => if isWhiteSpace c then EmptyString else String c EmptyString
      | t => String c t
      end
  end.

(** [String.prototype.trim] *)
Definition trim (s : string) : string := trimEnd (trimStart s).

(** [ToBoolean] on a string: only the empty string is falsy. *)
Definition truthy (s : string) : bool :=
  match s with
  | EmptyString => false
  | String _ _ => true
  end.

(** Completion of an evaluation: a value, or a thrown error. *)
Inductive Error : Type :=
| ReferenceError (name : string)
| SyntaxError
| TypeError
| HttpError (detail : option string).

Inductive Completion (A : Type) : Type :=
| Normal (a : A)
| Throw (e : Error).
Arguments Normal {A} a.
Arguments Throw {A} e.

Definition bind {A B} (m : Completion A) (k : A -> Completion B) : Completion B :=
  match m with
  | Normal a => k a
  | Throw e => Throw e
  end.

End JS.

(** ** Data exchanged with the server *)

(** The authenticated user object ([response.data.user], sent as [user] in
    [join_room]). *)
Record User := { user_id : string; user_username : string }.

(** Payload of [chat_message] and element of [room_state.chat_messages]. *)
Record ChatMessage := {
  msg_username : string;
  msg_message : string;
  msg_timestamp : string;
  msg_sequence : Z
}.

(** Element of the [users] list of [room_state], [user_joined], [user_left]. *)
Record RosterEntry := {
  socket_id : string;
  entry_user_id : string;
  entry_username : string
}.

(** The [data] object of [drawing_data] and [drawing_update]. *)
Record DrawData := { x : float; y : float; color : string; width : float }.

(** Events the client sends with [socket.emit]. *)
Inductive ClientEvent : Type :=
| join_room (room_id : string) (user : User)
| update_notes (room_id : string) (content : string)
| send_chat_message (room_id : string) (message : string)
| drawing_data (room_id : string) (data : DrawData).

(** Events the client listens for with [socket.on]. *)
Inductive ServerEvent : Type :=
| room_state (notes_content : string) (chat_messages : list ChatMessage)
             (users : list RosterEntry)
| chat_message (message : ChatMessage)
| notes_updated (content : string)
| user_joined (users : list RosterEntry)
| user_left (users : list RosterEntry)
| drawing_update (data : DrawData).

(** ** The whiteboard canvas

    The 2d context is the record of what the handlers assign to it and call
    on it: the two style properties, the current path, and one entry per
    [ctx.stroke()] with the style, width and path it painted. *)

Inductive PathOp : Type :=
| MoveTo (px py : float)
| LineTo (px py : float).

Record Painted := {
  painted_style : string;
  painted_width : float;
  painted_path : list PathOp
}.

Record Context2D := {
  strokeStyle : string;
  lineWidth : float;
  path : list PathOp;
  raster : list Painted
}.

Module Ctx.
Definition set_strokeStyle (v : string) (c : Context2D) : Context2D :=
  {| strokeStyle := v; lineWidth := lineWidth c; path := path c; raster := raster c |}.
Definition set_lineWidth (v : float) (c : Context2D) : Context2D :=
  {| strokeStyle := strokeStyle c; lineWidth := v; path := path c; raster := raster c |}.
Definition beginPath (c : Context2D) : Context2D :=
  {| strokeStyle := strokeStyle c; lineWidth := lineWidth c; path := []; raster := raster c |}.
Definition moveTo (px py : float) (c : Context2D) : Context2D :=
  {| strokeStyle := strokeStyle c; lineWidth := lineWidth c;
     path := path c ++ [MoveTo px py]; raster := raster c |}.
Definition lineTo (px py : float) (c : Context2D) : Context2D :=
  {| strokeStyle := strokeStyle c; lineWidth := lineWidth c;
     path := path c ++ [LineTo px py]; raster := raster c |}.
Definition stroke (c : Context2D) : Context2D :=
  {| strokeStyle := strokeStyle c; lineWidth := lineWidth c; path := path c;
     raster := raster c ++
       [{| painted_style := strokeStyle c; painted_width := lineWidth c;
           painted_path := path c |}] |}.
(** A canvas element as the browser creates it. *)
Definition fresh : Context2D :=
  {| strokeStyle := "#000000"; lineWidth := 1%float; path := []; raster := [] |}.
End Ctx.

(** ** StudyRoom *)

Inductive Tab : Type := notes_tab | chat_tab | whiteboard_tab.

(** The [useState] cells of [StudyRoom] and [canvasRef.current] (the canvas
    element exists only while the whiteboard tab is rendered). *)
Record StudyRoomState := {
  activeTab : Tab;
  notes : string;
  chatMessages : list ChatMessage;
  newMessage : string;
  connectedUsers : list RosterEntry;
  isDrawing : bool;
  canvasRef : option Context2D
}.

(** A socket.io connection, named by the order in which [io()] made it. *)
Record Socket := { socket_no : nat }.

(** What [StudyRoom] reads from its contexts and props. *)
Record Props := {
  socket : option Socket;
  user : option User;
  roomId : string
}.

Module StudyRoom.

Definition initial : StudyRoomState :=
  {| activeTab := notes_tab; notes := ""; chatMessages := []; newMessage := "";
     connectedUsers := []; isDrawing := false; canvasRef := None |}.

Definition setNotes (v : string) (s : StudyRoomState) : StudyRoomState :=
  {| activeTab := activeTab s; notes := v; chatMessages := chatMessages s;
     newMessage := newMessage s; connectedUsers := connectedUsers s;
     isDrawing := isDrawing s; canvasRef := canvasRef s |}.
Definition setChatMessages (v : list ChatMessage) (s : StudyRoomState) : StudyRoomState :=
  {| activeTab := activeTab s; notes := notes s; chatMessages := v;
     newMessage := newMessage s; connectedUsers := connectedUsers s;
     isDrawing := isDrawing s; canvasRef := canvasRef s |}.
Definition setNewMessage (v : string) (s : StudyRoomState) : StudyRoomState :=
  {| activeTab := activeTab s; notes := notes s; chatMessages := chatMessages s;
     newMessage := v; connectedUsers := connectedUsers s;
     isDrawing := isDrawing s; canvasRef := canvasRef s |}.
Definition setConnectedUsers (v : list RosterEntry) (s : StudyRoomState) : StudyRoomState :=
  {| activeTab := activeTab s; notes := notes s; chatMessages := chatMessages s;
     newMessage := newMessage s; connectedUsers := v;
     isDrawing := isDrawing s; canvasRef := canvasRef s |}.
Definition setIsDrawing (v : bool) (s : StudyRoomState) : StudyRoomState :=
  {| activeTab := activeTab s; notes := notes s; chatMessages := chatMessages s;
     newMessage := newMessage s; connectedUsers := connectedUsers s;
     isDrawing := v; canvasRef := canvasRef s |}.
Definition setCanvas (v : option Context2D) (s : StudyRoomState) : StudyRoomState :=
  {| activeTab := activeTab s; notes := notes s; chatMessages := chatMessages s;
     newMessage := newMessage s; connectedUsers := connectedUsers s;
     isDrawing := isDrawing s; canvasRef := v |}.

(** Tab buttons: [onClick={() => setActiveTab(tab)}].  The canvas is
    rendered under [activeTab === "whiteboard"] only, so leaving that tab
    unmounts it and entering it mounts a new one. *)
Definition setActiveTab (t : Tab) (s : StudyRoomState) : StudyRoomState :=
  {| activeTab := t; notes := notes s; chatMessages := chatMessages s;
     newMessage := newMessage s; connectedUsers := connectedUsers s;
     isDrawing := isDrawing s;
     canvasRef := match t, activeTab s with
                  | whiteboard_tab, whiteboard_tab => canvasRef s
                  | whiteboard_tab, _ => Some Ctx.fresh
                  | _, _ => None
                  end |}.

(** *** Listeners registered by the join effect (lines 463-501) *)

Definition on_room_state (notes_content : string) (chat_messages : list ChatMessage)
    (users : list RosterEntry) (s : StudyRoomState) : StudyRoomState :=
  setConnectedUsers users (setChatMessages chat_messages (setNotes notes_content s)).

(** [setChatMessages(prev => [...prev, message])] *)
Definition on_chat_message (message : ChatMessage) (s : StudyRoomState) : StudyRoomState :=
  setChatMessages (chatMessages s ++ [message]) s.

Definition on_notes_updated (content : string) (s : StudyRoomState) : StudyRoomState :=
  setNotes content s.

Definition on_user_joined (users : list RosterEntry) (s : StudyRoomState) : StudyRoomState :=
  setConnectedUsers users s.

Definition on_user_left (users : list RosterEntry) (s : StudyRoomState) : StudyRoomState :=
  setConnectedUsers users s.

(** The strokes a received [drawData] adds to a context. *)
Definition redraw (drawData : DrawData) (ctx : Context2D) : Context2D :=
  Ctx.stroke
    (Ctx.lineTo (x drawData) (y drawData)
       (Ctx.set_lineWidth (width drawData)
          (Ctx.set_strokeStyle (color drawData) ctx))).

Definition on_drawing_update (data : DrawData) (s : StudyRoomState) : StudyRoomState :=
  match canvasRef s with
  | Some ctx => setCanvas (Some (redraw data ctx)) s
  | None => s
  end.

(** Delivery of one server event to the registered listener. *)
Definition receive (s : StudyRoomState) (ev : ServerEvent) : StudyRoomState :=
  match ev with
  | room_state n c u => on_room_state n c u s
  | chat_message m => on_chat_message m s
  | notes_updated c => on_notes_updated c s
  | user_joined u => on_user_joined u s
  | user_left u => on_user_left u s
  | drawing_update d => on_drawing_update d s
  end.

Definition receive_all (s : StudyRoomState) (evs : list ServerEvent) : StudyRoomState :=
  fold_left receive evs s.

(** *** The join effect (lines 455-512)

    Under [socket && user && roomId] it emits [join_room] and registers the
    listeners; the boolean tells whether the listeners are registered. *)
Definition joinEffect (p : Props) : list ClientEvent * bool :=
  match socket p, user p with
  | Some _, Some u =>
      if JS.truthy (roomId p) then ([join_room (roomId p) u], true) else ([], false)
  | _, _ => ([], false)
  end.

(** *** Handlers of the user's input *)

Definition handleNotesChange (p : Props) (content : string) (s : StudyRoomState)
    : StudyRoomState * list ClientEvent :=
  let s' := setNotes content s in
  match socket p with
  | Some _ => (s', [update_notes (roomId p) content])
  | None => (s', [])
  end.

(** The chat input: [onChange={(e) => setNewMessage(e.target.value)}]. *)
Definition onNewMessageChange (value : string) (s : StudyRoomState) : StudyRoomState :=
  setNewMessage value s.

(** [e.preventDefault()] acts on the submit event only and is left out. *)
Definition sendMessage (p : Props) (s : StudyRoomState)
    : StudyRoomState * list ClientEvent :=
  match JS.truthy (JS.trim (newMessage s)), socket p with
  | true, Some _ =>
      (setNewMessage "" s, [send_chat_message (roomId p) (JS.trim (newMessage s))])
  | _, _ => (s, [])
  end.

(** *** Whiteboard *)

Record MouseEvent := { clientX : float; clientY : float }.
(** The part of [canvas.getBoundingClientRect()] that is read. *)
Record DOMRect := { rect_left : float; rect_top : float }.

(** The mouse handlers are attached to the canvas element, so they run with
    [canvasRef.current] set; without a canvas [canvas.getContext] throws and
    the handler stops there. *)
Definition startDrawing (rect : DOMRect) (e : MouseEvent) (s : StudyRoomState)
    : StudyRoomState :=
  let s' := setIsDrawing true s in
  match canvasRef s with
  | Some ctx =>
      let x := (clientX e - rect_left rect)%float in
      let y := (clientY e - rect_top rect)%float in
      setCanvas (Some (Ctx.moveTo x y (Ctx.beginPath ctx))) s'
  | None => s'
  end.

Definition draw (p : Props) (rect : DOMRect) (e : MouseEvent) (s : StudyRoomState)
    : StudyRoomState * list ClientEvent :=
  if negb (isDrawing s) then (s, [])
  else
    match canvasRef s with
    | Some ctx =>
        let x := (clientX e - rect_left rect)%float in
        let y := (clientY e - rect_top rect)%float in
        let ctx' :=
          Ctx.stroke
            (Ctx.lineTo x y
               (Ctx.set_strokeStyle "#000" (Ctx.set_lineWidth 2%float ctx))) in
        (setCanvas (Some ctx') s,
         match socket p with
         | Some _ =>
             [drawing_data (roomId p)
                {| x := x; y := y; color := "#000"; width := 2%float |}]
         | None => []
         end)
    | None => (s, [])
    end.

(** The stroke [draw] makes of a mouse event: the [data] it paints and
    emits. *)
Definition strokeOf (rect : DOMRect) (e : MouseEvent) : DrawData :=
  {| x := (clientX e - rect_left rect)%float;
     y := (clientY e - rect_top rect)%float;
     color := "#000"; width := 2%float |}.

Definition stopDrawing (s : StudyRoomState) : StudyRoomState :=
  setIsDrawing false s.

(** *** What is rendered from the state *)

(** One row of the chat pane: [key={index}], [msg.username], [msg.message]
    and the [msg.timestamp] the displayed time is built from. *)
Record ChatRow := {
  row_key : nat;
  row_username : string;
  row_message : string;
  row_timestamp : string
}.

Definition chatView (s : StudyRoomState) : list ChatRow :=
  imap (fun index msg =>
          {| row_key := index; row_username := msg_username msg;
             row_message := msg_message msg; row_timestamp := msg_timestamp msg |})
       (chatMessages s).

(** Header: [connectedUsers.length] and the avatars of
    [connectedUsers.slice(0, 5)] (lines 585-598).  An avatar has
    [key={user.socket_id}], [title={user.username}] and the text
    [user.username[0].toUpperCase()]; on an empty username [username[0]] is
    undefined and the call throws a TypeError, which ends the render. *)
Definition onlineCount (s : StudyRoomState) : nat := length (connectedUsers s).

Record Avatar := {
  avatar_key : string;
  avatar_title : string;
  avatar_text : string
}.

Section Render.

(** [String.prototype.toUpperCase] of the runtime. *)
Variable toUpperCase : string -> string.

Definition avatar (user : RosterEntry) : JS.Completion Avatar :=
  match entry_username user with
  | EmptyString => JS.Throw JS.TypeError
  | String c _ =>
      JS.Normal {| avatar_key := socket_id user;
                   avatar_title := entry_username user;
                   avatar_text := toUpperCase (String c EmptyString) |}
  end.

(** [Array.prototype.map] with a callback that may throw: the first throw
    ends it. *)
Fixpoint renderEach (users : list RosterEntry) : JS.Completion (list Avatar) :=
  match users with
  | [] => JS.Normal []
  | user :: rest =>
      JS.bind (avatar user) (fun a =>
        JS.bind (renderEach rest) (fun shown => JS.Normal (a :: shown)))
  end.

Definition avatars (s : StudyRoomState) : JS.Completion (list Avatar) :=
  renderEach (take 5 (connectedUsers s)).

End Render.

End StudyRoom.

(** ** AuthProvider (lines 22-88) *)

Module AuthProvider.

(** The two [useState] cells and the browser's [localStorage]. *)
Record State := {
  user : option User;
  token : option string;
  localStorage : gmap string string
}.

(** The decoded claims of a token, as far as they are read: [decoded.exp]. *)
Record Decoded := { exp : float }.

(** Which way the token effect went. *)
Inductive Branch : Type :=
| no_token
| token_valid
| token_expired
| caught (error : JS.Error).

(** On load: [useState(null)] and [useState(localStorage.getItem("token"))]. *)
Definition initial (stored : gmap string string) : State :=
  {| user := None; token := stored !! "token"; localStorage := stored |}.

Definition setUser (v : option User) (s : State) : State :=
  {| user := v; token := token s; localStorage := localStorage s |}.

Definition logout (s : State) : State :=
  {| user := None; token := None;
     localStorage := delete "user" (delete "token" (localStorage s)) |}.

Section Runtime.

(** The function exported by the jwt-decode package, [JSON.parse] and
    [JSON.stringify] on user objects. *)
Variable jwtDecode : string -> JS.Completion Decoded.
Variable JSON_parse : string -> JS.Completion User.
Variable JSON_stringify : User -> string.

(** Line 7, [import { jwtDecode } from "jwt-decode"], is the one binding
    in scope that decodes a token; no import or declaration of the file
    is named [jwt_decode]. *)
Definition scope : gmap string (string -> JS.Completion Decoded) :=
  {[ "jwtDecode" := jwtDecode ]}.

(** A call [name(arg)]: an unbound identifier throws a ReferenceError. *)
Definition call (name : string) (arg : string) : JS.Completion Decoded :=
  match scope !! name with
  | Some f => f arg
  | None => JS.Throw (JS.ReferenceError name)
  end.

(** [localStorage.getItem("user") || "{}"] *)
Definition storedUser (s : State) : string :=
  match localStorage s !! "user" with
  | Some v => if JS.truthy v then v else "{}"
  | None => "{}"
  end.

(** The body of the [try] block (lines 29-37); [now] is [Date.now()]. *)
Definition tryBody (now : float) (t : string) (s : State)
    : JS.Completion (Branch * State) :=
  JS.bind (call "jwt_decode" t) (fun decoded =>
    if (now <? exp decoded * 1000)%float then
      JS.bind (JSON_parse (storedUser s)) (fun userData =>
        JS.Normal (token_valid, setUser (Some userData) s))
    else JS.Normal (token_expired, logout s)).

(** The effect on [token] (lines 26-42). *)
Definition tokenEffect (now : float) (s : State) : Branch * State :=
  match token s with
  | Some t =>
      if JS.truthy t then
        match tryBody now t s with
        | JS.Normal r => r
        | JS.Throw error => (caught error, logout s)
        end
      else (no_token, s)
  | None => (no_token, s)
  end.

(** [login] and [register] once the server has answered: [response] is
    [Normal (access_token, userData)] or the thrown request error.  The
    second component is the returned [success] flag. *)
Definition login (response : JS.Completion (string * User)) (s : State)
    : State * bool :=
  match response with
  | JS.Normal (access_token, userData) =>
      ({| user := Some userData; token := Some access_token;
          localStorage :=
            <["user" := JSON_stringify userData]>
              (<["token" := access_token]> (localStorage s)) |}, true)
  | JS.Throw _ => (s, false)
  end.

Definition register (response : JS.Completion (string * User)) (s : State)
    : State * bool :=
  login response s.

End Runtime.

End AuthProvider.

(** ** SocketProvider (lines 91-113) *)

Module SocketProvider.

(** The [socket] cell, the number of [io()] calls so far, the socket the
    pending cleanup will close, and the sockets already closed. *)
Record State := {
  socket : option Socket;
  created : nat;
  pending : option Socket;
  closed : list Socket
}.

Definition initial : State :=
  {| socket := None; created := 0; pending := None; closed := [] |}.

(** The cleanup returned by the previous run of the effect, if any. *)
Definition cleanup (s : State) : State :=
  match pending s with
  | Some newSocket =>
      {| socket := socket s; created := created s; pending := None;
         closed := closed s ++ [newSocket] |}
  | None => s
  end.

(** The effect on [user]: previous cleanup, then the body. *)
Definition effect (user : option User) (s : State) : State :=
  let s := cleanup s in
  match user with
  | Some _ =>
      let newSocket := {| socket_no := created s |} in
      {| socket := Some newSocket; created := S (created s);
         pending := Some newSocket; closed := closed s |}
  | None => s
  end.

End SocketProvider.

(** ** Dashboard (lines 259-441): the join-room form *)

(** A room as the REST endpoints return it. *)
Record RoomInfo := {
  id : string;
  name : string;
  room_code : string;
  participants : list string
}.

(** Case mapping of the Basic Latin letters. *)
Module Latin.

Definition isAscii (c : ascii) : bool := (N_of_ascii c <? 128)%N.
Definition isUpper (c : ascii) : bool :=
  ((65 <=? N_of_ascii c) && (N_of_ascii c <=? 90))%N.
Definition isLower (c : ascii) : bool :=
  ((97 <=? N_of_ascii c) && (N_of_ascii c <=? 122))%N.
Definition isDigit (c : ascii) : bool :=
  ((48 <=? N_of_ascii c) && (N_of_ascii c <=? 57))%N.

Definition upper (c : ascii) : ascii :=
  if isLower c then ascii_of_N (N_of_ascii c - 32) else c.
Definition lower (c : ascii) : ascii :=
  if isUpper c then ascii_of_N (N_of_ascii c + 32) else c.

Fixpoint map (f : ascii -> ascii) (s : string) : string :=
  match s with
  | EmptyString => EmptyString
  | String c s' => String (f c) (map f s')
  end.

Fixpoint all (f : ascii -> bool) (s : string) : bool :=
  match s with
  | EmptyString => true
  | String c s' => f c && all f s'
  end.

Definition toUpperCase (s : string) : string := map upper s.
Definition toLowerCase (s : string) : string := map lower s.

End Latin.

Module Dashboard.

Record State := {
  rooms : list RoomInfo;
  showCreateRoom : bool;
  showJoinRoom : bool;
  roomName : string;
  roomCode : string;
  loading : bool
}.

Definition initial : State :=
  {| rooms := []; showCreateRoom := false; showJoinRoom := false;
     roomName := ""; roomCode := ""; loading := false |}.

Definition setRoomCode (v : string) (s : State) : State :=
  {| rooms := rooms s; showCreateRoom := showCreateRoom s;
     showJoinRoom := showJoinRoom s; roomName := roomName s;
     roomCode := v; loading := loading s |}.

(** The body and the [Authorization] header of [POST /api/rooms/join]. *)
Record JoinRequest := { body_room_code : string; authorization : string }.

Section Runtime.

(** [String.prototype.toUpperCase] of the runtime.  It follows the
    Unicode case mappings, whose tables are not part of the client; on
    strings of Basic Latin characters it is [Latin.toUpperCase]. *)
Variable toUpperCase : string -> string.

(** Join-room input (line 389):
    [onChange={(e) => setRoomCode(e.target.value.toUpperCase())}] *)
Definition onRoomCodeChange (value : string) (s : State) : State :=
  setRoomCode (toUpperCase value) s.

End Runtime.

(** The request [joinRoom] posts (lines 307-310); [token] is the
    AuthProvider's, interpolated into the header. *)
Definition joinRequest (token : option string) (s : State) : JoinRequest :=
  {| body_room_code := roomCode s;
     authorization := "Bearer " +:+ default "null" token |}.

(** [joinRoom] (lines 303-320) given the server's answer to the request:
    the new state and the room id navigated to, if any.  [e.preventDefault()]
    and [console.error] are left out; [setLoading(true)] is overwritten by
    the [finally] block. *)
Definition joinRoom (server : JoinRequest -> JS.Completion RoomInfo)
    (token : option string) (s : State) : State * option string :=
  match server (joinRequest token s) with
  | JS.Normal data =>
      ({| rooms := rooms s ++ [data]; showCreateRoom := showCreateRoom s;
          showJoinRoom := false; roomName := roomName s; roomCode := "";
          loading := false |}, Some (id data))
  | JS.Throw _ =>
      ({| rooms := rooms s; showCreateRoom := showCreateRoom s;
          showJoinRoom := showJoinRoom s; roomName := roomName s;
          roomCode := roomCode s; loading := false |}, None)
  end.

End Dashboard.

(** ** The join endpoint of the backend *)

Module Server.

(** Modelled from the spec: the backend's join codes, which the client
    source does not contain.  "Fixed-length uppercase alphanumeric". *)
Definition isJoinCode (code : string) : bool :=
  Latin.all (fun c => Latin.isUpper c || Latin.isDigit c) code.

(** Modelled from the spec: the comparison of the backend's code lookup,
    which the client source does not contain.  "Case-insensitive". *)
Definition sameCode (a b : string) : bool :=
  String.eqb (Latin.toUpperCase a) (Latin.toUpperCase b).

Definition addParticipant (userId : string) (r : RoomInfo) : RoomInfo :=
  {| id := id r; name := name r; room_code := room_code r;
     participants := if decide (userId ∈ participants r) then participants r
                     else participants r ++ [userId] |}.

(** Modelled from the spec: [joinByCode(code, userId) -> Room] of the Room
    State Store, which the client source does not contain.
    "Case-insensitive code lookup; fails with RoomNotFound on no match;
    adds the user to the participant list if not already present". *)
Definition joinByCode (rooms : list RoomInfo) (code userId : string)
    : JS.Completion RoomInfo :=
  match List.find (fun r => sameCode (room_code r) code) rooms with
  | Some r => JS.Normal (addParticipant userId r)
  | None => JS.Throw (JS.HttpError (Some "RoomNotFound"))
  end.

(** The endpoint as the client's [joinRoom] sees it, for the user the
    bearer credential belongs to. *)
Definition joinEndpoint (rooms : list RoomInfo) (userId : string)
    (req : Dashboard.JoinRequest) : JS.Completion RoomInfo :=
  joinByCode rooms (Dashboard.body_room_code req) userId.

End Server.

(** ** App (lines 696-736): providers, routes and the mounted room

    One state for the whole tree.  The actions are the events that drive it:
    answers of the server, user input, and runs of the three effects.  The
    effects are actions of their own, so every order in which React may run
    them is covered. *)

Module App.

Inductive Route : Type :=
| LoginPage
| DashboardPage
| RoomPage (roomId : string).

Record State := {
  auth : AuthProvider.State;
  sockets : SocketProvider.State;
  route : Route;
  studyRoom : StudyRoomState;
  listening : bool
}.

Definition initial (stored : gmap string string) (r : Route) : State :=
  {| auth := AuthProvider.initial stored; sockets := SocketProvider.initial;
     route := r; studyRoom := StudyRoom.initial; listening := false |}.

(** [PrivateRoute]: [user ? children : <Navigate to="/" />] *)
Definition PrivateRoute {A : Type} (user : option User) (children : A) : option A :=
  match user with
  | Some _ => Some children
  | None => None
  end.

(** The props of the [StudyRoom] on screen, if one is. *)
Definition mounted (s : State) : option Props :=
  match route s with
  | RoomPage rid =>
      PrivateRoute (AuthProvider.user (auth s))
        {| socket := SocketProvider.socket (sockets s);
           user := AuthProvider.user (auth s);
           roomId := rid |}
  | _ => None
  end.

Inductive Action : Type :=
| Load (r : Route)
| RunTokenEffect (now : float)
| LoginAnswer (response : JS.Completion (string * User))
| Logout
| RunSocketEffect
| Navigate (r : Route)
| RunJoinEffect
| Receive (ev : ServerEvent)
| NotesChange (content : string)
| TypeMessage (value : string)
| SendMessage
| SelectTab (t : Tab)
| StartDrawing (rect : StudyRoom.DOMRect) (e : StudyRoom.MouseEvent)
| Draw (rect : StudyRoom.DOMRect) (e : StudyRoom.MouseEvent)
| StopDrawing.

Definition withAuth (a : AuthProvider.State) (s : State) : State :=
  {| auth := a; sockets := sockets s; route := route s;
     studyRoom := studyRoom s; listening := listening s |}.
Definition withSockets (k : SocketProvider.State) (s : State) : State :=
  {| auth := auth s; sockets := k; route := route s;
     studyRoom := studyRoom s; listening := listening s |}.
Definition withStudyRoom (r : StudyRoomState) (s : State) : State :=
  {| auth := auth s; sockets := sockets s; route := route s;
     studyRoom := r; listening := listening s |}.
Definition withListening (b : bool) (s : State) : State :=
  {| auth := auth s; sockets := sockets s; route := route s;
     studyRoom := studyRoom s; listening := b |}.
(** A change of route unmounts the room on screen; the next one starts
    from its initial state. *)
Definition goTo (r : Route) (s : State) : State :=
  {| auth := auth s; sockets := sockets s; route := r;
     studyRoom := StudyRoom.initial; listening := false |}.

(** What rendering a [PrivateRoute] without a user does: [<Navigate to="/" />]. *)
Definition redirect (s : State) : State :=
  match route s, AuthProvider.user (auth s) with
  | DashboardPage, None | RoomPage _, None => goTo LoginPage s
  | _, _ => s
  end.

Section Runtime.

Variable jwtDecode : string -> JS.Completion AuthProvider.Decoded.
Variable JSON_parse : string -> JS.Completion User.
Variable JSON_stringify : User -> string.

(** A handler of the room on screen; without one the action cannot
    happen and the state stays. *)
Definition inRoom (s : State)
    (h : Props -> StudyRoomState -> StudyRoomState * list ClientEvent)
    : State * list ClientEvent :=
  match mounted s with
  | Some p => let '(r, evs) := h p (studyRoom s) in (withStudyRoom r s, evs)
  | None => (s, [])
  end.

Definition handle (s : State) (a : Action) : State * list ClientEvent :=
  match a with
  | Load r => (initial (AuthProvider.localStorage (auth s)) r, [])
  | RunTokenEffect now =>
      (withAuth (AuthProvider.tokenEffect jwtDecode JSON_parse now (auth s)).2 s, [])
  | LoginAnswer response =>
      match AuthProvider.login JSON_stringify response (auth s) with
      | (a', true) => (goTo DashboardPage (withAuth a' s), [])
      | (a', false) => (withAuth a' s, [])
      end
  | Logout => (goTo LoginPage (withAuth (AuthProvider.logout (auth s)) s), [])
  | RunSocketEffect =>
      (withSockets (SocketProvider.effect (AuthProvider.user (auth s)) (sockets s)) s, [])
  | Navigate r => (goTo r s, [])
  | RunJoinEffect =>
      match mounted s with
      | Some p => let '(evs, on) := StudyRoom.joinEffect p in (withListening on s, evs)
      | None => (s, [])
      end
  | Receive ev =>
      match mounted s with
      | Some _ =>
          if listening s
          then (withStudyRoom (StudyRoom.receive (studyRoom s) ev) s, [])
          else (s, [])
      | None => (s, [])
      end
  | NotesChange content =>
      inRoom s (fun p => StudyRoom.handleNotesChange p content)
  | TypeMessage value =>
      inRoom s (fun _ r => (StudyRoom.onNewMessageChange value r, []))
  | SendMessage => inRoom s StudyRoom.sendMessage
  | SelectTab t => inRoom s (fun _ r => (StudyRoom.setActiveTab t r, []))
  | StartDrawing rect e =>
      inRoom s (fun _ r => (StudyRoom.startDrawing rect e r, []))
  | Draw rect e => inRoom s (fun p => StudyRoom.draw p rect e)
  | StopDrawing => inRoom s (fun _ r => (StudyRoom.stopDrawing r, []))
  end.

(** One action, then the render that follows it. *)
Definition step (s : State) (a : Action) : State * list ClientEvent :=
  let '(s', evs) := handle s a in (redirect s', evs).

(** The events emitted along a run, each with the state it was emitted
    in. *)
Fixpoint run (s : State) (acts : list Action) : list (State * ClientEvent) :=
  match acts with
  | [] => []
  | a :: acts' =>
      let '(s', evs) := step s a in
      (pair s <$> evs) ++ run s' acts'
  end.

End Runtime.

(** An emission is authenticated when, in the state it is made in, a user
    is logged in, the socket exists, and a [join_room] carries that user. *)
Definition authenticated (se : State * ClientEvent) : Prop :=
  ∃ u k,
    AuthProvider.user (auth se.1) = Some u ∧
    SocketProvider.socket (sockets se.1) = Some k ∧
    ∀ rid u', se.2 = join_room rid u' → u' = u.

End App.

(** * Further parts of the client *)

(** ** Login (lines 147-257) *)

Module Login.

Record State := {
  email : string;
  password : string;
  isRegistering : bool;
  username : string;
  error : string;
  loading : bool
}.

Definition initial : State :=
  {| email := ""; password := ""; isRegistering := false; username := "";
     error := ""; loading := false |}.

(** The two requests of the AuthProvider: [POST /api/auth/login] and
    [POST /api/auth/register] with their bodies. *)
Inductive Request : Type :=
| LoginRequest (email password : string)
| RegisterRequest (username email password : string).

(** [isRegistering ? register(username, email, password) : login(email, password)] *)
Definition request (s : State) : Request :=
  if isRegistering s
  then RegisterRequest (username s) (email s) (password s)
  else LoginRequest (email s) (password s).

(** [error.response?.data?.detail || fallback] (lines 56 and 72). *)
Definition detailOr (fallback : string) (e : JS.Error) : string :=
  match e with
  | JS.HttpError (Some detail) => if JS.truthy detail then detail else fallback
  | _ => fallback
  end.

(** What [login] and [register] return: [{ success: true }] or
    [{ success: false, error }]. *)
Inductive Result : Type :=
| Succeeded
| Failed (error : string).

Definition result (s : State) (response : JS.Completion (string * User)) : Result :=
  match response with
  | JS.Normal _ => Succeeded
  | JS.Throw e =>
      Failed (detailOr (if isRegistering s then "Registration failed" else "Login failed") e)
  end.

(** [handleSubmit] (lines 157-180) against a server: the form, the
    AuthProvider's state and the path navigated to, if any.  [login] and
    [register] catch every error of the request themselves, so the outer
    [catch] is not entered. *)
Definition handleSubmit (JSON_stringify : User -> string)
    (server : Request -> JS.Completion (string * User))
    (s : State) (a : AuthProvider.State)
    : State * AuthProvider.State * option string :=
  let response := server (request s) in
  let a' :=
    (if isRegistering s
     then AuthProvider.register JSON_stringify response a
     else AuthProvider.login JSON_stringify response a).1 in
  match result s response with
  | Succeeded =>
      ({| email := email s; password := password s; isRegistering := isRegistering s;
          username := username s; error := ""; loading := false |},
       a', Some "/dashboard")
  | Failed msg =>
      ({| email := email s; password := password s; isRegistering := isRegistering s;
          username := username s; error := msg; loading := false |},
       a', None)
  end.

End Login.

(** ** Runs of handlers and effects *)

(** What a server event carries for the chat list, the notes and the
    roster, if anything. *)
Definition isRoomState (ev : ServerEvent) : bool :=
  match ev with
  | room_state _ _ _ => true
  | _ => false
  end.

Definition chatOf (ev : ServerEvent) : option ChatMessage :=
  match ev with
  | chat_message m => Some m
  | _ => None
  end.

Definition notesOf (ev : ServerEvent) : option string :=
  match ev with
  | room_state n _ _ => Some n
  | notes_updated c => Some c
  | _ => None
  end.

Definition rosterOf (ev : ServerEvent) : option (list RosterEntry) :=
  match ev with
  | room_state _ _ u => Some u
  | user_joined u => Some u
  | user_left u => Some u
  | _ => None
  end.

Definition strokeOfEvent (ev : ServerEvent) : option DrawData :=
  match ev with
  | drawing_update d => Some d
  | _ => None
  end.

(** A run of mouse moves over the canvas: [draw] on each, in order, with
    the events emitted along the way. *)
Definition drawAll (p : Props) (rect : StudyRoom.DOMRect)
    (es : list StudyRoom.MouseEvent) (s : StudyRoomState)
    : StudyRoomState * list ClientEvent :=
  fold_left
    (fun acc e =>
       let '(s', evs) := StudyRoom.draw p rect e acc.1 in (s', acc.2 ++ evs))
    es (s, []).

(** The point of a mouse event on the canvas. *)
Definition pointOf (rect : StudyRoom.DOMRect) (e : StudyRoom.MouseEvent) : float * float :=
  ((StudyRoom.clientX e - StudyRoom.rect_left rect)%float,
   (StudyRoom.clientY e - StudyRoom.rect_top rect)%float).

(** Successive runs of the SocketProvider's effect, one per value [user]
    takes. *)
Definition effects (users : list (option User)) (k : SocketProvider.State)
    : SocketProvider.State :=
  fold_left (fun k u => SocketProvider.effect u k) users k.

(** The sockets [io()] has made so far, in order. *)
Definition socketsMade (k : SocketProvider.State) : list Socket :=
  (fun n => {| socket_no := n |}) <$> seq 0 (SocketProvider.created k).

(** The sockets closed so far, then the one still to be closed, are the
    sockets made, in the order made; the cell holds the latest. *)
Definition accounted (k : SocketProvider.State) : Prop :=
  SocketProvider.closed k ++ option_list (SocketProvider.pending k) = socketsMade k
  ∧ SocketProvider.socket k = last (socketsMade k).

(** An answer of the server that logs a user in. *)
Definition logsIn (a : App.Action) : bool :=
  match a with
  | App.LoginAnswer (JS.Normal _) => true
  | _ => false
  end.

(** [username[0]] as a string, for a username that has a first character. *)
Definition initialOf (username : string) : string :=
  match username with
  | EmptyString => EmptyString
  | String c _ => String c EmptyString
  end.

(** The first and the last code unit of a string. *)
Definition firstUnit (s : string) : option ascii :=
  match s with
  | EmptyString => None
  | String c _ => Some c
  end.

Fixpoint lastUnit (s : string) : option ascii :=
  match s with
  | EmptyString => None
  | String c EmptyString => Some c
  | String _ s' => lastUnit s'
  end.

(** Typing into the controlled join-room field one character at a time:
    each change event carries the field's value, which is the stored
    [roomCode], with the new character at its end. *)
Definition typeChars (toUpperCase : string -> string) (typed : string)
    (s : Dashboard.State) : Dashboard.State :=
  fold_left
    (fun s c =>
       Dashboard.onRoomCodeChange toUpperCase
         (Dashboard.roomCode s +:+ String c EmptyString) s)
    (list_ascii_of_string typed) s.

(** * Sample inputs

    Concrete rooms, users and events the statements below are run on. *)

Section Samples.

Import StudyRoom.

(** A roster of two; the first connection leaves and the server sends the
    remaining one. *)
Definition roster_u1 : RosterEntry :=
  {| socket_id := "sid-1"; entry_user_id := "U1"; entry_username := "ada" |}.
Definition roster_u2 : RosterEntry :=
  {| socket_id := "sid-2"; entry_user_id := "U2"; entry_username := "bob" |}.

(** A room with a typed message, and props with and without a socket. *)
Definition typed_hi : StudyRoomState := onNewMessageChange " hi " initial.
Definition ada : User := {| user_id := "U1"; user_username := "ada" |}.
Definition connected : Props :=
  {| socket := Some {| socket_no := 0 |}; user := Some ada; roomId := "r1" |}.
Definition unconnected : Props :=
  {| socket := None; user := Some ada; roomId := "r1" |}.

(** On the whiteboard tab, with the button down, a mouse move at (30, 45)
    over a canvas at (10, 5), and a received stroke in red. *)
Definition on_whiteboard : StudyRoomState :=
  startDrawing {| rect_left := 10%float; rect_top := 5%float |}
    {| clientX := 12%float; clientY := 9%float |}
    (setActiveTab whiteboard_tab initial).
Definition red_stroke : DrawData :=
  {| x := 7.5%float; y := 3%float; color := "#f00"; width := 4%float |}.

(** The scenario of the spec: room "Algebra" with code K3F9Q2, created by U1;
    U2 types k3f9q2. *)
Definition algebra : RoomInfo :=
  {| id := "room-1"; name := "Algebra"; room_code := "K3F9Q2"; participants := ["U1"] |}.

(** A stored session whose token the decoder would accept until 2100, loaded
    in 2023. *)
Definition stored_session : gmap string string :=
  <["user" := "{}"]> (<["token" := "eyJhbGciOiJIUzI1NiJ9.e30.sig"]> ∅).
Definition decodes_until_2100 (t : string) : JS.Completion AuthProvider.Decoded :=
  JS.Normal {| AuthProvider.exp := 4102444800%float |}.
Definition parses_ada (t : string) : JS.Completion User := JS.Normal ada.

(** A session: log in, let the socket effect run, enter room r1, let the
    join effect run, send "hi", log out, and submit once more. *)
Definition stringify_id (u : User) : string := user_id u.
Definition session : list App.Action :=
  [App.LoginAnswer (JS.Normal ("tok", ada)); App.RunSocketEffect;
   App.Navigate (App.RoomPage "r1"); App.RunJoinEffect;
   App.TypeMessage "hi"; App.SendMessage; App.Logout;
   App.TypeMessage "bye"; App.SendMessage].

End Samples.

Section MoreSamples.

(** A server that rejects every credential with a message. *)
(** A stored session whose token is the empty string. *)
Definition stored_empty_token : gmap string string :=
  <["user" := "{}"]> (<["token" := ""]> ∅).

Definition rejects (r : Login.Request) : JS.Completion (string * User) :=
  JS.Throw (JS.HttpError (Some "Invalid credentials")).

(** A roster of seven, and one whose second entry has an empty username. *)
Definition roster_entry (n username : string) : RosterEntry :=
  {| socket_id := "sid-" +:+ n; entry_user_id := "U" +:+ n; entry_username := username |}.
Definition roster_of_seven : list RosterEntry :=
  [roster_entry "1" "ada"; roster_entry "2" "bob"; roster_entry "3" "cy";
   roster_entry "4" "dee"; roster_entry "5" "eve"; roster_entry "6" "fay";
   roster_entry "7" "gus"].
Definition roster_with_blank : list RosterEntry :=
  [roster_entry "1" "ada"; roster_entry "2" ""; roster_entry "3" "cy"].

End MoreSamples.

(** * Properties *)

(** ** Received events *)

Section Received.

Import StudyRoom.

Lemma receive_all_snoc (s : StudyRoomState) (evs : list ServerEvent) (ev : ServerEvent) :
  receive_all s (evs ++ [ev]) = receive (receive_all s evs) ev.
Proof. unfold receive_all. by rewrite fold_left_app. Qed.

Lemma setChatMessages_same (s : StudyRoomState) :
  setChatMessages (chatMessages s) s = s.
Proof. by destruct s. Qed.

Lemma receive_chat_messages (msgs : list ChatMessage) (s : StudyRoomState) :
  receive_all s (chat_message <$> msgs) = setChatMessages (chatMessages s ++ msgs) s.
Proof.
  revert s. induction msgs as [|m msgs IH]; intros s; simpl.
  - by rewrite app_nil_r, setChatMessages_same.
  - unfold receive_all in *. simpl. rewrite IH. unfold on_chat_message. simpl.
    by rewrite <- app_assoc.
Qed.

(** C1: a sequence of received [chat_message] events appends the messages,
    in the order received, after the messages already stored; the stored
    ones, their order and every other cell of the room stay as they were,
    and the chat pane shows the rows in that same order. *)
Theorem chat_messages_appended_in_order (s : StudyRoomState) (msgs : list ChatMessage) :
  let s' := receive_all s (chat_message <$> msgs) in
  chatMessages s' = chatMessages s ++ msgs
  ∧ s' = setChatMessages (chatMessages s ++ msgs) s
  ∧ row_message <$> chatView s' = msg_message <$> (chatMessages s ++ msgs)
  ∧ take (length (chatView s)) (chatView s') = chatView s.
Proof.
  simpl. rewrite receive_chat_messages. repeat split.
  - unfold chatView. simpl. generalize (chatMessages s ++ msgs). intros l.
    rewrite fmap_imap. unfold compose. simpl.
    induction l as [|m l IH] using rev_ind; [done|].
    by rewrite imap_app, fmap_app, IH.
  - unfold chatView. simpl. rewrite imap_app, length_imap.
    by rewrite take_app_length'; [|rewrite length_imap].
Qed.

Lemma receive_notes_updates (contents : list string) (s : StudyRoomState) :
  receive_all s (notes_updated <$> contents)
  = setNotes (default (notes s) (last contents)) s.
Proof.
  induction contents as [|c contents IH] using rev_ind.
  - simpl. by destruct s.
  - rewrite fmap_app. simpl. rewrite receive_all_snoc, IH, last_snoc. reflexivity.
Qed.

(** C4: after a sequence of received [notes_updated] events the notes are
    the content of the one received last, whatever was received or stored
    before. *)
Theorem notes_last_write_wins (s : StudyRoomState) (earlier : list string)
    (latest : string) :
  notes (receive_all s (notes_updated <$> (earlier ++ [latest]))) = latest.
Proof. by rewrite receive_notes_updates, last_snoc. Qed.

End Received.

(** ** The roster *)

Section Roster.

Import StudyRoom.

Variable toUpperCase : string → string.

Lemma renderEach_keys (users : list RosterEntry) (shown : list Avatar) :
  renderEach toUpperCase users = JS.Normal shown →
  avatar_key <$> shown = socket_id <$> users
  ∧ avatar_title <$> shown = entry_username <$> users.
Proof.
  revert shown. induction users as [|user rest IH]; intros shown; simpl.
  - by intros [= <-].
  - unfold avatar. destruct (entry_username user) as [|c name] eqn:Hname; [done|].
    simpl. destruct (renderEach toUpperCase rest) as [shown'|] eqn:Hrest; [|done].
    simpl. intros [= <-]. destruct (IH shown' eq_refl) as [Hk Ht].
    rewrite !fmap_cons, Hk, Ht. simpl. by rewrite ?Hname.
Qed.

Lemma avatars_from_roster (s : StudyRoomState) (shown : list Avatar) (sid : string) :
  avatars toUpperCase s = JS.Normal shown →
  sid ∈ (avatar_key <$> shown) → sid ∈ (socket_id <$> connectedUsers s).
Proof.
  unfold avatars. intros [Hkeys _]%renderEach_keys. rewrite Hkeys. intros H.
  apply list_elem_of_fmap in H as (e & -> & He).
  apply list_elem_of_fmap. exists e. split; [done|].
  apply list_elem_of_lookup in He as [i Hi]. apply lookup_take_Some in Hi as [Hi _].
  by eapply list_elem_of_lookup_2.
Qed.

(** C6: [room_state], [user_joined] and [user_left] each replace the whole
    roster by the list the server sent, whatever the roster held before; so
    when the list sent with [user_left] has no entry for the departed
    connection, neither has the roster, nor the avatars drawn from it. *)
Theorem roster_replaced_by_server_list (s : StudyRoomState)
    (users : list RosterEntry) :
  (∀ n c, connectedUsers (receive s (room_state n c users)) = users)
  ∧ connectedUsers (receive s (user_joined users)) = users
  ∧ connectedUsers (receive s (user_left users)) = users
  ∧ ∀ departed : string,
      departed ∉ (socket_id <$> users) →
      let s' := receive s (user_left users) in
      (departed ∉ (socket_id <$> connectedUsers s'))
      ∧ (∀ shown, avatars toUpperCase s' = JS.Normal shown →
           departed ∉ (avatar_key <$> shown))
      ∧ onlineCount s' = length users.
Proof.
  repeat split; try done.
  intros shown Hshown Hin. by apply (avatars_from_roster _ _ _ Hshown) in Hin.
Qed.

End Roster.

Lemma roster_replaced_by_server_list_witness :
  let s' := StudyRoom.receive
              (StudyRoom.setConnectedUsers [roster_u1; roster_u2] StudyRoom.initial)
              (user_left [roster_u2]) in
  ("sid-1" ∉ (socket_id <$> connectedUsers s'))
  ∧ (∀ shown, StudyRoom.avatars Latin.toUpperCase s' = JS.Normal shown →
       "sid-1" ∉ (StudyRoom.avatar_key <$> shown))
  ∧ StudyRoom.onlineCount s' = 1.
Proof.
  apply (roster_replaced_by_server_list Latin.toUpperCase
           (StudyRoom.setConnectedUsers [roster_u1; roster_u2] StudyRoom.initial)
           [roster_u2]).
  simpl. intros H. apply list_elem_of_singleton in H. discriminate H.
Defined.

(** ** Chat submission and notes edits *)

Section Chat.

Import StudyRoom.

Lemma truthy_nonempty (t : string) : JS.truthy t = true ↔ t ≠ "".
Proof. destruct t; simpl; split; congruence. Qed.

Example trim_both_ends :
  JS.trim (String (ascii_of_N 9) "  hi  there " +:+ String (ascii_of_N 10) "")
  = "hi  there".
Proof. reflexivity. Qed.

Example trim_only_spaces : JS.trim "   " = "".
Proof. reflexivity. Qed.

Example white_space_units :
  JS.isWhiteSpace <$> (ascii_of_N <$> [9; 13; 32; 160; 8; 14; 97; 133]%N)
  = [true; true; true; true; false; false; false; false].
Proof. reflexivity. Qed.

Lemma sendMessage_emits (p : Props) (s : StudyRoomState) :
  JS.trim (newMessage s) ≠ "" → is_Some (socket p) →
  sendMessage p s
  = (setNewMessage "" s, [send_chat_message (roomId p) (JS.trim (newMessage s))]).
Proof.
  intros Ht [k Hk]. unfold sendMessage. rewrite Hk.
  apply truthy_nonempty in Ht. by rewrite Ht.
Qed.

Lemma sendMessage_silent (p : Props) (s : StudyRoomState) :
  JS.trim (newMessage s) = "" ∨ socket p = None → sendMessage p s = (s, []).
Proof.
  unfold sendMessage. intros [Ht | Hk].
  - by rewrite Ht.
  - rewrite Hk. by destruct (JS.truthy _).
Qed.

Lemma sendMessage_keeps_chat (p : Props) (s : StudyRoomState) :
  chatMessages (sendMessage p s).1 = chatMessages s.
Proof.
  unfold sendMessage. destruct (JS.truthy _); [|done]. by destruct (socket p).
Qed.

Lemma chatView_same (s s' : StudyRoomState) :
  chatMessages s' = chatMessages s → chatView s' = chatView s.
Proof. unfold chatView. by intros ->. Qed.

(** C2: [sendMessage] leaves the chat list as it is; the sender's copy of
    a message is the stored message of the server's [chat_message], put
    last in the list with the server's username, timestamp and sequence, and
    shown as the last row. *)
Theorem sender_copy_is_server_copy (p : Props) (s : StudyRoomState)
    (stored : ChatMessage) :
  let sent := (sendMessage p s).1 in
  let echoed := receive sent (chat_message stored) in
  chatMessages sent = chatMessages s
  ∧ chatView sent = chatView s
  ∧ chatMessages echoed = chatMessages s ++ [stored]
  ∧ last (chatMessages echoed) = Some stored
  ∧ last (chatView echoed)
    = Some {| row_key := length (chatMessages s);
              row_username := msg_username stored;
              row_message := msg_message stored;
              row_timestamp := msg_timestamp stored |}.
Proof.
  simpl. pose proof (sendMessage_keeps_chat p s) as Hkeep.
  split; [done|]. split; [by apply chatView_same|].
  unfold on_chat_message, chatView. simpl. rewrite Hkeep.
  split; [done|]. split; [by rewrite last_snoc|].
  rewrite imap_app. simpl. rewrite last_snoc. by rewrite Nat.add_0_r.
Qed.

(** C3, as stated, fails: with no socket a submission whose trimmed text is
    not empty emits nothing. *)
Lemma sendMessage_without_socket_counterexample :
  ¬ (∀ (p : Props) (s : StudyRoomState),
       (sendMessage p s).2 = [send_chat_message (roomId p) (JS.trim (newMessage s))]
       ↔ JS.trim (newMessage s) ≠ "").
Proof.
  intros claim. destruct (claim unconnected typed_hi) as [_ emit].
  discriminate emit. vm_compute. discriminate.
Qed.

(** C3, amended: [sendMessage] emits [send_chat_message] exactly when the
    trimmed input is not empty and the socket exists; it then sends the
    trimmed input as the message and clears the input field; otherwise it
    emits nothing and changes no state. *)
Theorem sendMessage_emits_iff_nonempty_and_socket (p : Props) (s : StudyRoomState) :
  ((sendMessage p s).2 ≠ [] ↔ JS.trim (newMessage s) ≠ "" ∧ is_Some (socket p))
  ∧ (JS.trim (newMessage s) ≠ "" → is_Some (socket p) →
     sendMessage p s
     = (setNewMessage "" s, [send_chat_message (roomId p) (JS.trim (newMessage s))])
     ∧ newMessage (sendMessage p s).1 = "")
  ∧ (JS.trim (newMessage s) = "" ∨ socket p = None → sendMessage p s = (s, [])).
Proof.
  split; [|split].
  - split.
    + intros Hne. destruct (decide (JS.trim (newMessage s) = "")) as [Ht|Ht].
      { by rewrite sendMessage_silent in Hne; [|left]. }
      destruct (socket p) as [k|] eqn:Hk; [by eauto|].
      by rewrite sendMessage_silent in Hne; [|right].
    + intros [Ht Hk]. by rewrite sendMessage_emits.
  - intros Ht Hk. by rewrite sendMessage_emits.
  - apply sendMessage_silent.
Qed.

Lemma sendMessage_emits_iff_nonempty_and_socket_witness :
  sendMessage connected typed_hi
  = (setNewMessage "" typed_hi, [send_chat_message "r1" "hi"])
  ∧ newMessage (sendMessage connected typed_hi).1 = "".
Proof.
  apply (proj1 (proj2 (sendMessage_emits_iff_nonempty_and_socket connected typed_hi))).
  - vm_compute. discriminate.
  - exists {| socket_no := 0 |}. reflexivity.
Defined.

(** C5, as stated, fails in both halves: with no socket a notes edit emits
    no [update_notes], and a submitted message is in no row of the sender's
    chat pane when [sendMessage] returns. *)
Lemma chat_shown_before_echo_counterexample :
  ¬ (∀ (p : Props) (s : StudyRoomState) (content : string),
       (handleNotesChange p content s).2 = [update_notes (roomId p) content])
  ∧ ¬ (∀ (p : Props) (s : StudyRoomState),
         JS.trim (newMessage s) ≠ "" → is_Some (socket p) →
         ∃ row, row ∈ chatView (sendMessage p s).1
                ∧ row_message row = JS.trim (newMessage s)).
Proof.
  split.
  - intros claim. specialize (claim unconnected initial "<p>x</p>").
    discriminate claim.
  - intros claim. destruct (claim connected typed_hi) as (row & Hrow & _).
    + vm_compute. discriminate.
    + by eexists.
    + vm_compute in Hrow. by apply elem_of_nil in Hrow.
Qed.

Lemma receive_changes_chat (s : StudyRoomState) (ev : ServerEvent) :
  chatMessages (receive s ev) ≠ chatMessages s →
  (∃ m, ev = chat_message m) ∨ (∃ n c u, ev = room_state n c u).
Proof.
  destruct ev; simpl; try done; try by eauto.
  unfold on_drawing_update. by destruct (canvasRef s).
Qed.

Lemma input_keeps_chat (p : Props) (s : StudyRoomState) (content value : string)
    (t : Tab) (rect : DOMRect) (e : MouseEvent) :
  chatMessages (handleNotesChange p content s).1 = chatMessages s
  ∧ chatMessages (onNewMessageChange value s) = chatMessages s
  ∧ chatMessages (setActiveTab t s) = chatMessages s
  ∧ chatMessages (startDrawing rect e s) = chatMessages s
  ∧ chatMessages (draw p rect e s).1 = chatMessages s
  ∧ chatMessages (stopDrawing s) = chatMessages s.
Proof.
  unfold handleNotesChange, startDrawing, draw.
  repeat split; try done.
  - by destruct (socket p).
  - by destruct (canvasRef s).
  - destruct (isDrawing s); [|done]. by destruct (canvasRef s).
Qed.

(** C5, amended: a notes edit sets the local notes to the edited content
    and then, when the socket exists, emits [update_notes] with that content,
    and with no socket emits nothing; a chat submission leaves the sender's
    chat list and chat pane as they were, and so does every other handler of
    the user's input; the list changes only on a received [chat_message],
    which appends the stored message, or a received [room_state], which
    replaces the list by the snapshot. *)
Theorem local_edits (p : Props) (s : StudyRoomState) (content : string) :
  notes (handleNotesChange p content s).1 = content
  ∧ (handleNotesChange p content s).2
    = match socket p with
      | Some _ => [update_notes (roomId p) content]
      | None => []
      end
  ∧ chatMessages (sendMessage p s).1 = chatMessages s
  ∧ chatView (sendMessage p s).1 = chatView s
  ∧ (∀ value t rect e,
       chatMessages (handleNotesChange p content s).1 = chatMessages s
       ∧ chatMessages (onNewMessageChange value s) = chatMessages s
       ∧ chatMessages (setActiveTab t s) = chatMessages s
       ∧ chatMessages (startDrawing rect e s) = chatMessages s
       ∧ chatMessages (draw p rect e s).1 = chatMessages s
       ∧ chatMessages (stopDrawing s) = chatMessages s)
  ∧ (∀ ev : ServerEvent,
       chatMessages (receive s ev) ≠ chatMessages s →
       (∃ m, ev = chat_message m) ∨ (∃ n c u, ev = room_state n c u))
  ∧ (∀ stored : ChatMessage,
       chatMessages (receive (sendMessage p s).1 (chat_message stored))
       = chatMessages s ++ [stored])
  ∧ (∀ n c u, chatMessages (receive (sendMessage p s).1 (room_state n c u)) = c).
Proof.
  pose proof (sendMessage_keeps_chat p s) as Hkeep.
  split; [unfold handleNotesChange; by destruct (socket p)|].
  split; [unfold handleNotesChange; by destruct (socket p)|].
  split; [done|]. split; [by apply chatView_same|].
  split; [intros value t rect e; apply input_keeps_chat|].
  split; [apply receive_changes_chat|].
  split; [|done]. intros stored. simpl. by rewrite Hkeep.
Qed.

Lemma local_edits_witness :
  (∃ m, chat_message {| msg_username := "ada"; msg_message := "hi";
                        msg_timestamp := "t1"; msg_sequence := 1 |}
        = chat_message m)
  ∨ (∃ n c u, chat_message {| msg_username := "ada"; msg_message := "hi";
                              msg_timestamp := "t1"; msg_sequence := 1 |}
              = room_state n c u).
Proof.
  pose proof (local_edits connected typed_hi "<p>x</p>")
    as (_ & _ & _ & _ & _ & Honly & _).
  apply (Honly (chat_message {| msg_username := "ada"; msg_message := "hi";
                                msg_timestamp := "t1"; msg_sequence := 1 |})).
  vm_compute. discriminate.
Defined.

End Chat.

(** ** Whiteboard strokes *)

Section Whiteboard.

Import StudyRoom.

Lemma draw_emits (p : Props) (rect : DOMRect) (e : MouseEvent) (s : StudyRoomState)
    (ev : ClientEvent) :
  ev ∈ (draw p rect e s).2 → ev = drawing_data (roomId p) (strokeOf rect e).
Proof.
  unfold draw. destruct (isDrawing s); simpl; [|by intros ?%elem_of_nil].
  destruct (canvasRef s); simpl; [|by intros ?%elem_of_nil].
  destruct (socket p); simpl; [|by intros ?%elem_of_nil].
  by intros ->%list_elem_of_singleton.
Qed.

(** C9, as stated, fails: a [drawing_update] received while no canvas is
    mounted (any tab but the whiteboard, the initial tab included) paints
    nothing. *)
Lemma drawing_update_without_canvas_counterexample :
  ¬ (∀ (s : StudyRoomState) (data : DrawData),
       ∃ ctx, canvasRef (receive s (drawing_update data)) = Some ctx
              ∧ ∃ painted, last (raster ctx) = Some painted
                           ∧ painted_style painted = color data
                           ∧ painted_width painted = width data).
Proof.
  intros claim.
  destruct (claim initial {| x := 1%float; y := 1%float; color := "#000";
                             width := 2%float |}) as (ctx & Hctx & _).
  discriminate Hctx.
Qed.

(** C9, amended: every event [draw] emits is [drawing_data] with the room
    id and the stroke [{x, y, color, width}] it has just painted; a received
    [drawing_update], when the whiteboard canvas is mounted, is painted with
    the received color and width and a line to the received [(x, y)], none
    of them changed; when no canvas is mounted it is dropped and the state
    stays as it was. *)
Theorem strokes_relayed_verbatim (p : Props) (rect : DOMRect) (e : MouseEvent)
    (s : StudyRoomState) (data : DrawData) :
  (∀ ev, ev ∈ (draw p rect e s).2 →
     ev = drawing_data (roomId p) (strokeOf rect e)
     ∧ ∃ ctx, canvasRef s = Some ctx
              ∧ canvasRef (draw p rect e s).1 = Some (redraw (strokeOf rect e) ctx))
  ∧ (∀ ctx, canvasRef s = Some ctx →
       let ctx' := redraw data ctx in
       canvasRef (receive s (drawing_update data)) = Some ctx'
       ∧ strokeStyle ctx' = color data
       ∧ lineWidth ctx' = width data
       ∧ path ctx' = path ctx ++ [LineTo (x data) (y data)]
       ∧ raster ctx' = raster ctx ++
           [{| painted_style := color data; painted_width := width data;
               painted_path := path ctx ++ [LineTo (x data) (y data)] |}])
  ∧ (canvasRef s = None → receive s (drawing_update data) = s).
Proof.
  split; [|split].
  - intros ev Hev. split; [by eapply draw_emits|].
    unfold draw in *. destruct (isDrawing s); simpl in *; [|by apply elem_of_nil in Hev].
    destruct (canvasRef s) as [ctx|]; simpl in *; [|by apply elem_of_nil in Hev].
    by exists ctx.
  - intros ctx Hctx. simpl. unfold on_drawing_update. by rewrite Hctx.
  - intros Hnone. simpl. unfold on_drawing_update. by rewrite Hnone.
Qed.

Lemma strokes_relayed_verbatim_witness :
  (drawing_data "r1" {| x := 20%float; y := 40%float; color := "#000"; width := 2%float |}
   = drawing_data "r1"
       (strokeOf {| rect_left := 10%float; rect_top := 5%float |}
                 {| clientX := 30%float; clientY := 45%float |}))
  ∧ (∃ ctx', canvasRef (receive on_whiteboard (drawing_update red_stroke)) = Some ctx'
             ∧ strokeStyle ctx' = "#f00" ∧ lineWidth ctx' = 4%float
             ∧ last (path ctx') = Some (LineTo 7.5%float 3%float)).
Proof.
  pose (rect := {| rect_left := 10%float; rect_top := 5%float |}).
  pose (e := {| clientX := 30%float; clientY := 45%float |}).
  pose proof (strokes_relayed_verbatim connected rect e on_whiteboard red_stroke)
    as (Hdraw & Hrecv & _).
  split.
  - apply (Hdraw (drawing_data "r1" {| x := 20%float; y := 40%float;
                                        color := "#000"; width := 2%float |})).
    vm_compute. apply list_elem_of_here.
  - destruct (Hrecv (Ctx.moveTo 2%float 4%float (Ctx.beginPath Ctx.fresh)))
      as (H1 & H2 & H3 & H4 & _); [reflexivity|].
    eexists. split; [exact H1|]. split; [exact H2|]. split; [exact H3|].
    rewrite H4. apply last_snoc.
Defined.

End Whiteboard.

(** ** Joining by code *)

Section JoinByCode.

Import Dashboard.

Lemma code_char_roundtrip (c : ascii) :
  Latin.isUpper c || Latin.isDigit c = true →
  Latin.upper (Latin.lower c) = c ∧ Latin.upper c = c
  ∧ Latin.isAscii (Latin.lower c) = true.
Proof.
  destruct c as [[] [] [] [] [] [] [] []]; vm_compute; intros H;
    try discriminate H; by repeat split.
Qed.

Lemma join_code_roundtrip (code : string) :
  Server.isJoinCode code = true →
  Latin.toUpperCase (Latin.toLowerCase code) = code
  ∧ Latin.toUpperCase code = code
  ∧ Latin.all Latin.isAscii (Latin.toLowerCase code) = true.
Proof.
  unfold Server.isJoinCode, Latin.toUpperCase, Latin.toLowerCase.
  induction code as [|c code IH]; simpl; [done|].
  intros [Hc Hrest]%andb_true_iff.
  destruct (code_char_roundtrip c Hc) as (-> & -> & ->).
  destruct (IH Hrest) as (-> & -> & ->). done.
Qed.

Lemma joinByCode_finds (rooms : list RoomInfo) (r : RoomInfo) (code userId : string) :
  r ∈ rooms → Server.sameCode (room_code r) code = true →
  ∃ r0, r0 ∈ rooms ∧ Server.sameCode (room_code r0) code = true
        ∧ Server.joinByCode rooms code userId
          = JS.Normal (Server.addParticipant userId r0).
Proof.
  intros Hin Hsame. unfold Server.joinByCode.
  destruct (List.find _ rooms) as [r0|] eqn:Hfind.
  - apply List.find_some in Hfind as [Hr0 Hs]. exists r0.
    by rewrite <- list_elem_of_In in Hr0.
  - apply list_elem_of_In in Hin.
    pose proof (List.find_none _ _ Hfind r Hin) as Hno. simpl in Hno. congruence.
Qed.

Lemma addParticipant_member (userId : string) (r : RoomInfo) :
  userId ∈ participants (Server.addParticipant userId r).
Proof.
  unfold Server.addParticipant. simpl. case_decide; [done|].
  apply elem_of_app. right. apply list_elem_of_here.
Qed.

Variable toUpperCase : string → string.
Hypothesis toUpperCase_latin :
  ∀ v, Latin.all Latin.isAscii v = true → toUpperCase v = Latin.toUpperCase v.

(** C7: whatever is typed into the join-room field, the code stored and
    posted to the join endpoint is its upper-case form; so typing the
    lower-case rendering of a room's join code posts the join code itself,
    the lookup finds a room with that code, the user is among its
    participants and the client navigates to it. *)
Theorem join_code_uppercased (token : option string) (s : State) :
  (∀ value : string,
     let typed := onRoomCodeChange toUpperCase value s in
     roomCode typed = toUpperCase value
     ∧ body_room_code (joinRequest token typed) = toUpperCase value)
  ∧ (∀ (rooms : list RoomInfo) (r : RoomInfo) (userId : string),
       r ∈ rooms →
       Forall (λ r0, Server.isJoinCode (room_code r0) = true) rooms →
       let typed :=
         onRoomCodeChange toUpperCase (Latin.toLowerCase (room_code r)) s in
       body_room_code (joinRequest token typed) = room_code r
       ∧ ∃ joined,
           Server.joinEndpoint rooms userId (joinRequest token typed)
           = JS.Normal joined
           ∧ room_code joined = room_code r
           ∧ userId ∈ participants joined
           ∧ (joinRoom (Server.joinEndpoint rooms userId) token typed).2
             = Some (id joined)).
Proof.
  split; [done|].
  intros rooms r userId Hin Hcodes. simpl.
  pose proof (proj1 (Forall_forall _ _) Hcodes r Hin) as Hcode. simpl in Hcode.
  destruct (join_code_roundtrip _ Hcode) as (Hround & Hup & Hascii).
  rewrite (toUpperCase_latin _ Hascii), Hround. split; [done|].
  destruct (joinByCode_finds rooms r (room_code r) userId Hin) as (r0 & Hr0 & Hs & Hjoin).
  { unfold Server.sameCode. apply String.eqb_refl. }
  exists (Server.addParticipant userId r0).
  unfold joinRoom, Server.joinEndpoint, joinRequest. simpl.
  rewrite (toUpperCase_latin _ Hascii), Hround, Hjoin. simpl.
  repeat split; [|apply addParticipant_member].
  pose proof (proj1 (Forall_forall _ _) Hcodes r0 Hr0) as Hcode0. simpl in Hcode0.
  destruct (join_code_roundtrip _ Hcode0) as (_ & Hup0 & _).
  unfold Server.sameCode in Hs. apply String.eqb_eq in Hs. congruence.
Qed.

End JoinByCode.

Lemma join_code_uppercased_witness :
  let typed := Dashboard.onRoomCodeChange Latin.toUpperCase "k3f9q2" Dashboard.initial in
  Dashboard.body_room_code (Dashboard.joinRequest (Some "tok") typed) = "K3F9Q2"
  ∧ ∃ joined,
      Server.joinEndpoint [algebra] "U2" (Dashboard.joinRequest (Some "tok") typed)
      = JS.Normal joined
      ∧ room_code joined = "K3F9Q2"
      ∧ "U2" ∈ participants joined
      ∧ (Dashboard.joinRoom (Server.joinEndpoint [algebra] "U2") (Some "tok") typed).2
        = Some (id joined).
Proof.
  apply (proj2 (join_code_uppercased Latin.toUpperCase (λ v _, eq_refl)
                  (Some "tok") Dashboard.initial) [algebra] algebra "U2").
  - apply list_elem_of_here.
  - repeat constructor.
Defined.

(** ** Restoring a persisted session *)

Section TokenRestore.

Import AuthProvider.

Variable jwtDecode : string → JS.Completion Decoded.
Variable JSON_parse : string → JS.Completion User.

Lemma jwt_decode_unbound (t : string) :
  call jwtDecode "jwt_decode" t = JS.Throw (JS.ReferenceError "jwt_decode").
Proof. unfold call, scope. by rewrite lookup_singleton_ne. Qed.

Lemma tryBody_throws (now : float) (t : string) (s : State) :
  tryBody jwtDecode JSON_parse now t s = JS.Throw (JS.ReferenceError "jwt_decode").
Proof. unfold tryBody. by rewrite jwt_decode_unbound. Qed.

Lemma tokenEffect_catches (now : float) (s : State) (t : string) :
  token s = Some t → t ≠ "" →
  tokenEffect jwtDecode JSON_parse now s
  = (caught (JS.ReferenceError "jwt_decode"), logout s).
Proof.
  intros Ht Hne. unfold tokenEffect. rewrite Ht.
  apply truthy_nonempty in Hne. by rewrite Hne, tryBody_throws.
Qed.

Lemma tokenEffect_user (now : float) (s : State) :
  user (tokenEffect jwtDecode JSON_parse now s).2 = None ∨
  (tokenEffect jwtDecode JSON_parse now s).2 = s.
Proof.
  unfold tokenEffect. destruct (token s) as [t|]; [|by right].
  destruct (JS.truthy t); [|by right]. rewrite tryBody_throws. by left.
Qed.

Lemma logout_clears (s : State) :
  user (logout s) = None ∧ token (logout s) = None
  ∧ localStorage (logout s) !! "token" = None
  ∧ localStorage (logout s) !! "user" = None.
Proof.
  unfold logout. simpl. repeat split.
  - rewrite lookup_delete_ne by done. apply lookup_delete_eq.
  - apply lookup_delete_eq.
Qed.

(** C10, amended: on load with a non-empty token in [localStorage], the
    token effect throws at the call of the unbound [jwt_decode], takes the
    catch branch and logs out, which removes the stored token and user and clears both
    cells; whatever the decoder would say about the token, and whatever is
    stored, no user is restored by the effect. *)
Theorem persisted_session_never_restored (now : float)
    (stored : gmap string string) :
  (∀ t : string,
     stored !! "token" = Some t → t ≠ "" →
     let r := tokenEffect jwtDecode JSON_parse now (initial stored) in
     r.1 = caught (JS.ReferenceError "jwt_decode")
     ∧ r.2 = logout (initial stored)
     ∧ user r.2 = None ∧ token r.2 = None
     ∧ localStorage r.2 !! "token" = None
     ∧ localStorage r.2 !! "user" = None)
  ∧ user (tokenEffect jwtDecode JSON_parse now (initial stored)).2 = None.
Proof.
  split.
  - intros t Ht Hne. simpl.
    rewrite (tokenEffect_catches now (initial stored) t Ht Hne). simpl.
    split; [done|]. split; [done|]. apply (logout_clears (initial stored)).
  - by destruct (tokenEffect_user now (initial stored)) as [H | ->].
Qed.

End TokenRestore.

Example token_not_expired :
  (1700000000000 <? AuthProvider.exp {| AuthProvider.exp := 4102444800 |} * 1000)%float
  = true.
Proof. reflexivity. Qed.

Lemma persisted_session_never_restored_witness :
  let r := AuthProvider.tokenEffect decodes_until_2100 parses_ada 1700000000000%float
             (AuthProvider.initial stored_session) in
  r.1 = AuthProvider.caught (JS.ReferenceError "jwt_decode")
  ∧ r.2 = AuthProvider.logout (AuthProvider.initial stored_session)
  ∧ AuthProvider.user r.2 = None ∧ AuthProvider.token r.2 = None
  ∧ AuthProvider.localStorage r.2 !! "token" = None
  ∧ AuthProvider.localStorage r.2 !! "user" = None.
Proof.
  apply (proj1 (persisted_session_never_restored decodes_until_2100 parses_ada
                  1700000000000%float stored_session)
           "eyJhbGciOiJIUzI1NiJ9.e30.sig").
  - reflexivity.
  - discriminate.
Defined.

(** C10, as stated, fails: a stored token that is the empty string does
    not pass [if (token)], so the effect takes no branch, calls no [logout]
    and leaves the stored token and user in place. *)
Lemma empty_token_kept_counterexample :
  ¬ (∀ (stored : gmap string string) (t : string) (now : float),
       stored !! "token" = Some t →
       let r := AuthProvider.tokenEffect decodes_until_2100 parses_ada now
                  (AuthProvider.initial stored) in
       r.1 = AuthProvider.caught (JS.ReferenceError "jwt_decode")
       ∧ AuthProvider.localStorage r.2 !! "token" = None
       ∧ AuthProvider.localStorage r.2 !! "user" = None).
Proof.
  intros claim.
  destruct (claim stored_empty_token "" 1700000000000%float eq_refl) as [Hbranch _].
  discriminate Hbranch.
Qed.

Example empty_token_effect :
  AuthProvider.tokenEffect decodes_until_2100 parses_ada 1700000000000%float
    (AuthProvider.initial stored_empty_token)
  = (AuthProvider.no_token, AuthProvider.initial stored_empty_token).
Proof. reflexivity. Qed.

(** ** Emissions need a user and a socket *)

Section Emissions.

Import StudyRoom.

Lemma joinEffect_emits (p : Props) (ev : ClientEvent) :
  ev ∈ (joinEffect p).1 →
  ∃ u, user p = Some u ∧ is_Some (socket p) ∧ ev = join_room (roomId p) u.
Proof.
  unfold joinEffect. destruct (socket p) as [k|]; [|by intros ?%elem_of_nil].
  destruct (user p) as [u|]; [|by intros ?%elem_of_nil].
  destruct (JS.truthy (roomId p)); [|by intros ?%elem_of_nil].
  intros ->%list_elem_of_singleton. by eauto.
Qed.

Lemma handleNotesChange_no_socket (p : Props) (content : string) (s : StudyRoomState) :
  socket p = None → (handleNotesChange p content s).2 = [].
Proof. unfold handleNotesChange. by intros ->. Qed.

Lemma sendMessage_no_socket (p : Props) (s : StudyRoomState) :
  socket p = None → (sendMessage p s).2 = [].
Proof. intros Hk. by rewrite sendMessage_silent; [|right]. Qed.

Lemma draw_no_socket (p : Props) (rect : DOMRect) (e : MouseEvent) (s : StudyRoomState) :
  socket p = None → (draw p rect e s).2 = [].
Proof.
  unfold draw. intros ->. destruct (isDrawing s); [|done]. by destruct (canvasRef s).
Qed.

Lemma joinEffect_no_socket (p : Props) :
  socket p = None → joinEffect p = ([], false).
Proof. unfold joinEffect. by intros ->. Qed.

Lemma effect_without_user (k : SocketProvider.State) :
  SocketProvider.socket (SocketProvider.effect None k) = SocketProvider.socket k
  ∧ SocketProvider.created (SocketProvider.effect None k) = SocketProvider.created k.
Proof.
  unfold SocketProvider.effect, SocketProvider.cleanup.
  by destruct (SocketProvider.pending k).
Qed.

Lemma effect_with_user (u : User) (k : SocketProvider.State) :
  SocketProvider.socket (SocketProvider.effect (Some u) k)
  = Some {| socket_no := SocketProvider.created k |}.
Proof.
  unfold SocketProvider.effect, SocketProvider.cleanup.
  by destruct (SocketProvider.pending k).
Qed.

Lemma mounted_props (s : App.State) (p : Props) :
  App.mounted s = Some p →
  user p = AuthProvider.user (App.auth s)
  ∧ socket p = SocketProvider.socket (App.sockets s)
  ∧ is_Some (AuthProvider.user (App.auth s)).
Proof.
  unfold App.mounted, App.PrivateRoute. destruct (App.route s); try done.
  destruct (AuthProvider.user (App.auth s)) as [u|] eqn:Hu; [|done].
  intros [= <-]. simpl. by eauto.
Qed.

Variable jwtDecode : string → JS.Completion AuthProvider.Decoded.
Variable JSON_parse : string → JS.Completion User.
Variable JSON_stringify : User → string.

Local Abbreviation handle := (App.handle jwtDecode JSON_parse JSON_stringify).
Local Abbreviation step := (App.step jwtDecode JSON_parse JSON_stringify).
Local Abbreviation run := (App.run jwtDecode JSON_parse JSON_stringify).

(** An emission of a handler of the mounted room, seen from the app. *)
Lemma inRoom_authenticated (s : App.State)
    (h : Props → StudyRoomState → StudyRoomState * list ClientEvent)
    (ev : ClientEvent) :
  (∀ p r, socket p = None → (h p r).2 = []) →
  (∀ p r rid u, join_room rid u ∉ (h p r).2) →
  ev ∈ (App.inRoom s h).2 → App.authenticated (s, ev).
Proof.
  intros Hguard Hjoin. unfold App.inRoom.
  destruct (App.mounted s) as [p|] eqn:Hm; [|by intros ?%elem_of_nil].
  destruct (mounted_props s p Hm) as (Hu & Hk & [u Hsome]).
  destruct (h p (App.studyRoom s)) as [r evs] eqn:Hh. simpl. intros Hev.
  destruct (socket p) as [k|] eqn:Hsock.
  - exists u, k. simpl. repeat split; [done|congruence|].
    intros rid u' ->. exfalso. apply (Hjoin p (App.studyRoom s) rid u').
    by rewrite Hh.
  - specialize (Hguard p (App.studyRoom s) Hsock). rewrite Hh in Hguard.
    simpl in Hguard. subst evs. by apply elem_of_nil in Hev.
Qed.

Lemma handle_authenticated (s : App.State) (a : App.Action) (ev : ClientEvent) :
  ev ∈ (handle s a).2 → App.authenticated (s, ev).
Proof.
  destruct a; simpl; try by intros ?%elem_of_nil.
  - destruct (AuthProvider.login _ _ _) as [a' []]; by intros ?%elem_of_nil.
  - destruct (App.mounted s) as [p|] eqn:Hm; [|by intros ?%elem_of_nil].
    destruct (mounted_props s p Hm) as (Hu & Hk & _).
    destruct (joinEffect p) as [evs on] eqn:Hj. simpl. intros Hev.
    destruct (joinEffect_emits p ev) as (u & Hup & [k Hkp] & ->).
    { by rewrite Hj. }
    exists u, k. simpl. split; [by rewrite <- Hu|]. split; [by rewrite <- Hk|].
    intros rid u' H. by injection H.
  - destruct (App.mounted s); [|by intros ?%elem_of_nil].
    destruct (App.listening s); by intros ?%elem_of_nil.
  - apply inRoom_authenticated.
    + intros p r. apply handleNotesChange_no_socket.
    + intros p r rid u. unfold handleNotesChange.
      destruct (socket p); simpl; [|by intros ?%elem_of_nil].
      by intros ?%list_elem_of_singleton.
  - apply inRoom_authenticated; [done|]. by intros p r rid u ?%elem_of_nil.
  - apply inRoom_authenticated.
    + apply sendMessage_no_socket.
    + intros p r rid u. unfold sendMessage.
      destruct (JS.truthy _); simpl; [|by intros ?%elem_of_nil].
      destruct (socket p); simpl; [|by intros ?%elem_of_nil].
      by intros ?%list_elem_of_singleton.
  - apply inRoom_authenticated; [done|]. by intros p r rid u ?%elem_of_nil.
  - apply inRoom_authenticated; [done|]. by intros p r rid u ?%elem_of_nil.
  - apply inRoom_authenticated.
    + intros p r. apply draw_no_socket.
    + intros p r rid u Hin. by apply draw_emits in Hin.
  - apply inRoom_authenticated; [done|]. by intros p r rid u ?%elem_of_nil.
Qed.

Lemma run_authenticated (acts : list App.Action) (s : App.State) :
  Forall App.authenticated (run s acts).
Proof.
  revert s. induction acts as [|a acts IH]; intros s; simpl; [constructor|].
  unfold App.step. pose proof (handle_authenticated s a) as Hstep.
  destruct (handle s a) as [s' evs]. simpl in *.
  apply Forall_app. split; [|apply IH].
  apply Forall_forall. intros [s0 ev] Hin.
  apply list_elem_of_fmap in Hin as (ev' & [= -> ->] & Hev).
  by apply Hstep.
Qed.

(** C8: the socket effect makes no socket while there is no user; without
    a socket the join effect and the three emitting handlers emit nothing;
    a [join_room] is emitted only with a user and a socket and carries that
    user; and along every run of the app, from any state, every event is
    emitted in a state where a user is logged in and the socket exists. *)
Theorem emits_only_when_authenticated :
  (∀ k, SocketProvider.socket (SocketProvider.effect None k) = SocketProvider.socket k
        ∧ SocketProvider.created (SocketProvider.effect None k)
          = SocketProvider.created k)
  ∧ SocketProvider.socket SocketProvider.initial = None
  ∧ (∀ p, socket p = None →
       joinEffect p = ([], false)
       ∧ ∀ s content rect e,
           (handleNotesChange p content s).2 = []
           ∧ (sendMessage p s).2 = []
           ∧ (draw p rect e s).2 = [])
  ∧ (∀ p ev, ev ∈ (joinEffect p).1 →
       ∃ u, user p = Some u ∧ is_Some (socket p) ∧ ev = join_room (roomId p) u)
  ∧ (∀ s acts, Forall App.authenticated (run s acts)).
Proof.
  split; [apply effect_without_user|]. split; [done|].
  split.
  { intros p Hk. split; [by apply joinEffect_no_socket|]. intros s content rect e.
    by rewrite handleNotesChange_no_socket, sendMessage_no_socket, draw_no_socket. }
  split; [apply joinEffect_emits|].
  intros s acts. apply run_authenticated.
Qed.

End Emissions.

Example session_emissions :
  (App.run decodes_until_2100 parses_ada stringify_id
     (App.initial ∅ App.LoginPage) session).*2
  = [join_room "r1" ada; send_chat_message "r1" "hi"].
Proof. vm_compute. reflexivity. Qed.

Lemma emits_only_when_authenticated_witness :
  (StudyRoom.joinEffect unconnected = ([], false)
   ∧ ∀ s content rect e,
       (StudyRoom.handleNotesChange unconnected content s).2 = []
       ∧ (StudyRoom.sendMessage unconnected s).2 = []
       ∧ (StudyRoom.draw unconnected rect e s).2 = [])
  ∧ (∃ u, user connected = Some u ∧ is_Some (socket connected)
          ∧ join_room "r1" ada = join_room (roomId connected) u)
  ∧ Forall App.authenticated
      (App.run decodes_until_2100 parses_ada stringify_id
         (App.initial ∅ App.LoginPage) session).
Proof.
  pose proof (emits_only_when_authenticated decodes_until_2100 parses_ada stringify_id)
    as (_ & _ & Hguard & Hjoin & Hrun).
  split; [|split].
  - apply (Hguard unconnected). reflexivity.
  - apply (Hjoin connected (join_room "r1" ada)). vm_compute. apply list_elem_of_here.
  - apply Hrun.
Defined.

(** * Further properties *)

(** ** Any sequence of server events *)

Section AnyEvents.

Import StudyRoom.

Lemma receive_all_cons (s : StudyRoomState) (ev : ServerEvent) (evs : list ServerEvent) :
  receive_all s (ev :: evs) = receive_all (receive s ev) evs.
Proof. reflexivity. Qed.

Lemma receive_all_app (s : StudyRoomState) (evs1 evs2 : list ServerEvent) :
  receive_all s (evs1 ++ evs2) = receive_all (receive_all s evs1) evs2.
Proof. unfold receive_all. apply fold_left_app. Qed.

Lemma chat_without_room_state (evs : list ServerEvent) (s : StudyRoomState) :
  Forall (λ ev, isRoomState ev = false) evs →
  chatMessages (receive_all s evs) = chatMessages s ++ omap chatOf evs.
Proof.
  intros Hevs. revert s. induction Hevs as [|ev evs Hev _ IH]; intros s.
  - simpl. by rewrite app_nil_r.
  - rewrite receive_all_cons, IH.
    destruct ev; try discriminate Hev; simpl; try done.
    + by rewrite <- app_assoc.
    + unfold on_drawing_update. by destruct (canvasRef s).
Qed.

(** X1: among server events of any kind, the chat list is the list of the
    last [room_state] (or the list held before, when there is none)
    followed by the [chat_message]s received after it, in the order
    received; notes, roster and drawing events in between neither drop nor
    reorder a message. *)
Theorem chat_after_any_events (s : StudyRoomState) (before after : list ServerEvent)
    (n : string) (c : list ChatMessage) (u : list RosterEntry) :
  Forall (λ ev, isRoomState ev = false) after →
  chatMessages (receive_all s after) = chatMessages s ++ omap chatOf after
  ∧ chatMessages (receive_all s (before ++ room_state n c u :: after))
    = c ++ omap chatOf after.
Proof.
  intros Hafter. split; [by apply chat_without_room_state|].
  rewrite receive_all_app, receive_all_cons.
  by rewrite chat_without_room_state.
Qed.

Lemma chat_after_any_events_witness :
  let m1 := {| msg_username := "ada"; msg_message := "hello";
               msg_timestamp := "t1"; msg_sequence := 1 |} in
  let m2 := {| msg_username := "bob"; msg_message := "hi";
               msg_timestamp := "t2"; msg_sequence := 2 |} in
  let after := [chat_message m1; notes_updated "x"; user_joined [roster_u2];
                chat_message m2; drawing_update red_stroke] in
  chatMessages (receive_all initial after) = chatMessages initial ++ [m1; m2]
  ∧ chatMessages (receive_all initial
                    ([chat_message m2] ++ room_state "n" [m2] [] :: after))
    = [m2] ++ [m1; m2].
Proof.
  intros m1 m2 after.
  apply (chat_after_any_events initial [chat_message m2] after "n" [m2] []).
  repeat constructor.
Defined.

Lemma last_omap_snoc {A B : Type} (f : A → option B) (l : list A) (a : A) (d : B) :
  default d (last (omap f (l ++ [a])))
  = default (default d (last (omap f l))) (f a).
Proof.
  rewrite omap_app. simpl. destruct (f a) as [b|]; simpl.
  - by rewrite last_snoc.
  - by rewrite app_nil_r.
Qed.

(** X2: after any sequence of server events the notes are the content of
    the last event that carries notes ([room_state] or [notes_updated]) and
    the roster is the list of the last event that carries one ([room_state],
    [user_joined] or [user_left]); with no such event they are what they
    were. *)
Theorem notes_and_roster_follow_last_event (s : StudyRoomState) (evs : list ServerEvent) :
  notes (receive_all s evs) = default (notes s) (last (omap notesOf evs))
  ∧ connectedUsers (receive_all s evs)
    = default (connectedUsers s) (last (omap rosterOf evs)).
Proof.
  induction evs as [|ev evs [IHn IHu]] using rev_ind; [done|].
  rewrite receive_all_snoc, !last_omap_snoc, <- IHn, <- IHu.
  destruct ev; simpl; try done.
  unfold on_drawing_update. by destruct (canvasRef _).
Qed.

Lemma receive_frame (s : StudyRoomState) (ev : ServerEvent) :
  newMessage (receive s ev) = newMessage s
  ∧ activeTab (receive s ev) = activeTab s
  ∧ isDrawing (receive s ev) = isDrawing s.
Proof.
  destruct ev; simpl; try done. unfold on_drawing_update. by destruct (canvasRef s).
Qed.

Lemma receive_all_frame (s : StudyRoomState) (evs : list ServerEvent) :
  newMessage (receive_all s evs) = newMessage s
  ∧ activeTab (receive_all s evs) = activeTab s
  ∧ isDrawing (receive_all s evs) = isDrawing s.
Proof.
  induction evs as [|ev evs (IH1 & IH2 & IH3)] using rev_ind; [done|].
  rewrite receive_all_snoc, <- IH1, <- IH2, <- IH3. apply receive_frame.
Qed.

(** X3: no server event, and no sequence of them, changes what the user
    has typed into the chat input, the selected tab or the mouse-button
    state. *)
Theorem events_leave_input_alone (s : StudyRoomState) (evs : list ServerEvent) :
  newMessage (receive_all s evs) = newMessage s
  ∧ activeTab (receive_all s evs) = activeTab s
  ∧ isDrawing (receive_all s evs) = isDrawing s.
Proof. apply receive_all_frame. Qed.

Lemma no_canvas_stays (evs : list ServerEvent) (s : StudyRoomState) :
  canvasRef s = None → canvasRef (receive_all s evs) = None.
Proof.
  intros Hs. induction evs as [|ev evs IH] using rev_ind; [done|].
  rewrite receive_all_snoc. destruct ev; simpl; try done.
  unfold on_drawing_update. by rewrite IH.
Qed.

(** X4: on a mounted canvas, the strokes received in any sequence of
    server events extend the one current path by a line to each received
    point, in order, and paint once per stroke with the received color and
    width; nothing starts a new path between two received strokes. *)
Theorem received_strokes_join_one_path (s : StudyRoomState) (ctx : Context2D)
    (evs : list ServerEvent) :
  canvasRef s = Some ctx →
  ∃ ctx',
    canvasRef (receive_all s evs) = Some ctx'
    ∧ path ctx' = path ctx ++ ((λ d, LineTo (x d) (y d)) <$> omap strokeOfEvent evs)
    ∧ painted_style <$> raster ctx'
      = (painted_style <$> raster ctx) ++ (color <$> omap strokeOfEvent evs)
    ∧ painted_width <$> raster ctx'
      = (painted_width <$> raster ctx) ++ (width <$> omap strokeOfEvent evs).
Proof.
  intros Hs. induction evs as [|ev evs (ctx' & Hc & Hp & Hst & Hw)] using rev_ind.
  - exists ctx. simpl. by rewrite !app_nil_r.
  - rewrite receive_all_snoc, omap_app.
    destruct ev; simpl; try (exists ctx'; by rewrite !app_nil_r).
    unfold on_drawing_update. rewrite Hc. eexists. split; [reflexivity|]. simpl.
    rewrite Hp, !fmap_app, Hst, Hw. simpl. by rewrite <- !app_assoc.
Qed.

Lemma received_strokes_join_one_path_witness :
  ∃ ctx',
    canvasRef (receive_all on_whiteboard
                 [drawing_update red_stroke; notes_updated "x";
                  drawing_update red_stroke]) = Some ctx'
    ∧ path ctx' = [MoveTo 2%float 4%float] ++
                  [LineTo 7.5%float 3%float; LineTo 7.5%float 3%float]
    ∧ painted_style <$> raster ctx' = [] ++ ["#f00"; "#f00"]
    ∧ painted_width <$> raster ctx' = [] ++ [4%float; 4%float].
Proof.
  apply (received_strokes_join_one_path on_whiteboard
           (Ctx.moveTo 2%float 4%float (Ctx.beginPath Ctx.fresh))
           [drawing_update red_stroke; notes_updated "x"; drawing_update red_stroke]).
  reflexivity.
Defined.

(** X5: leaving the whiteboard tab and coming back gives a blank canvas:
    what was painted before is gone, and every stroke received while
    another tab was selected is lost. *)
Theorem whiteboard_lost_on_tab_switch (s : StudyRoomState) (t : Tab)
    (evs : list ServerEvent) :
  t ≠ whiteboard_tab →
  canvasRef (receive_all (setActiveTab t s) evs) = None
  ∧ canvasRef (setActiveTab whiteboard_tab (receive_all (setActiveTab t s) evs))
    = Some Ctx.fresh.
Proof.
  intros Ht.
  assert (canvasRef (setActiveTab t s) = None) as Hnone.
  { simpl. by destruct t. }
  pose proof (no_canvas_stays evs _ Hnone) as Hstay. split; [done|].
  destruct (receive_all_frame (setActiveTab t s) evs) as (_ & Htab & _).
  simpl. rewrite Htab. simpl. by destruct t.
Qed.

Lemma whiteboard_lost_on_tab_switch_witness :
  canvasRef (receive_all (setActiveTab chat_tab on_whiteboard)
               [drawing_update red_stroke]) = None
  ∧ canvasRef (setActiveTab whiteboard_tab
                 (receive_all (setActiveTab chat_tab on_whiteboard)
                    [drawing_update red_stroke]))
    = Some Ctx.fresh.
Proof.
  apply (whiteboard_lost_on_tab_switch on_whiteboard chat_tab [drawing_update red_stroke]).
  discriminate.
Defined.

End AnyEvents.

(** ** What [sendMessage] sends *)

Section SentMessages.

Import StudyRoom.

Lemma trimStart_first (s : string) (c : ascii) :
  firstUnit (JS.trimStart s) = Some c → JS.isWhiteSpace c = false.
Proof.
  induction s as [|a s IH]; simpl; [done|].
  destruct (JS.isWhiteSpace a) eqn:Ha; [done|]. simpl. by intros [= <-].
Qed.

Lemma trimEnd_first (s : string) (c : ascii) :
  firstUnit (JS.trimEnd s) = Some c → firstUnit s = Some c.
Proof.
  destruct s as [|a s]; simpl; [done|].
  destruct (JS.trimEnd s); [|done]. by destruct (JS.isWhiteSpace a).
Qed.

Lemma trimEnd_last (s : string) (c : ascii) :
  lastUnit (JS.trimEnd s) = Some c → JS.isWhiteSpace c = false.
Proof.
  induction s as [|a s IH]; simpl; [done|].
  destruct (JS.trimEnd s) as [|b t] eqn:Ht.
  - destruct (JS.isWhiteSpace a) eqn:Ha; [done|]. simpl. by intros [= <-].
  - intros Hlast. apply IH. exact Hlast.
Qed.

Lemma trimEnd_idempotent (s : string) : JS.trimEnd (JS.trimEnd s) = JS.trimEnd s.
Proof.
  induction s as [|a s IH]; simpl; [done|].
  destruct (JS.trimEnd s) as [|b t] eqn:Ht.
  - destruct (JS.isWhiteSpace a) eqn:Ha; simpl; [done|]. by rewrite Ha.
  - change (JS.trimEnd (String a (String b t))) with
      (match JS.trimEnd (String b t) with
       | EmptyString =>
           if JS.isWhiteSpace a then EmptyString else String a EmptyString
       | t0 => String a t0
       end).
    by rewrite IH.
Qed.

Lemma trimStart_fixed (s : string) :
  (∀ c, firstUnit s = Some c → JS.isWhiteSpace c = false) → JS.trimStart s = s.
Proof.
  destruct s as [|a s]; simpl; [done|]. intros H. by rewrite (H a eq_refl).
Qed.

Lemma trimEnd_empty (s : string) :
  JS.trimEnd s = "" ↔ Latin.all JS.isWhiteSpace s = true.
Proof.
  induction s as [|a s IH]; simpl; [done|].
  destruct (JS.trimEnd s) as [|b t] eqn:Ht.
  - destruct (JS.isWhiteSpace a); simpl; [|by split]. split; [|done].
    intros _. by apply IH.
  - split; [done|]. intros [_ Hall]%andb_true_iff. by apply IH in Hall.
Qed.

Lemma trimStart_all (s : string) :
  Latin.all JS.isWhiteSpace (JS.trimStart s) = Latin.all JS.isWhiteSpace s.
Proof.
  induction s as [|a s IH]; simpl; [done|].
  destruct (JS.isWhiteSpace a) eqn:Ha; simpl; [done|]. by rewrite Ha.
Qed.

Lemma trim_empty (s : string) :
  JS.trim s = "" ↔ Latin.all JS.isWhiteSpace s = true.
Proof. unfold JS.trim. by rewrite trimEnd_empty, trimStart_all. Qed.

Lemma trim_ends (s : string) (c : ascii) :
  firstUnit (JS.trim s) = Some c ∨ lastUnit (JS.trim s) = Some c →
  JS.isWhiteSpace c = false.
Proof.
  unfold JS.trim. intros [Hf | Hl].
  - apply trimEnd_first in Hf. by eapply trimStart_first.
  - by eapply trimEnd_last.
Qed.

Lemma trim_idempotent (s : string) : JS.trim (JS.trim s) = JS.trim s.
Proof.
  unfold JS.trim at 1. rewrite trimStart_fixed.
  - apply trimEnd_idempotent.
  - intros c Hc. apply (trim_ends s c). by left.
Qed.

(** X6: a message [sendMessage] sends is never empty, neither begins nor
    ends with white space, is unchanged by a further [trim], and goes to the
    room of the props. *)
Theorem sent_message_is_trimmed (p : Props) (s : StudyRoomState)
    (rid message : string) :
  send_chat_message rid message ∈ (sendMessage p s).2 →
  rid = roomId p
  ∧ message ≠ ""
  ∧ JS.trim message = message
  ∧ ∀ c, firstUnit message = Some c ∨ lastUnit message = Some c →
         JS.isWhiteSpace c = false.
Proof.
  unfold sendMessage. destruct (JS.truthy _) eqn:Ht; [|by intros ?%elem_of_nil].
  destruct (socket p); [|by intros ?%elem_of_nil]. simpl.
  intros [= -> ->]%list_elem_of_singleton. split; [done|].
  split; [by apply truthy_nonempty|]. split; [apply trim_idempotent|].
  apply trim_ends.
Qed.

Lemma sent_message_is_trimmed_witness :
  "r1" = roomId connected
  ∧ "hi" ≠ ""
  ∧ JS.trim "hi" = "hi"
  ∧ ∀ c, firstUnit "hi" = Some c ∨ lastUnit "hi" = Some c →
         JS.isWhiteSpace c = false.
Proof.
  apply (sent_message_is_trimmed connected typed_hi "r1" "hi").
  vm_compute. apply list_elem_of_here.
Defined.

(** X7: with a socket, a submission is sent exactly when the input holds
    at least one character that is not white space; an input of white space
    only, however long, sends nothing. *)
Theorem sends_iff_some_visible_character (p : Props) (s : StudyRoomState) :
  (sendMessage p s).2 ≠ []
  ↔ is_Some (socket p) ∧ Latin.all JS.isWhiteSpace (newMessage s) = false.
Proof.
  split.
  - intros Hne. destruct (decide (JS.trim (newMessage s) = "")) as [Ht|Ht].
    { by rewrite sendMessage_silent in Hne; [|left]. }
    destruct (socket p) as [k|] eqn:Hk; [|by rewrite sendMessage_silent in Hne; [|right]].
    split; [by eauto|]. apply not_true_is_false. by rewrite <- trim_empty.
  - intros [Hk Hall]. rewrite sendMessage_emits; [done| |done].
    rewrite trim_empty. by rewrite Hall.
Qed.

Lemma sends_iff_some_visible_character_witness :
  (sendMessage connected typed_hi).2 ≠ [].
Proof.
  apply (proj2 (sends_iff_some_visible_character connected typed_hi)).
  split; [by eexists|reflexivity].
Defined.

(** X8: submitting twice in a row never sends twice: whatever the first
    submission did, a second one right after it emits nothing. *)
Theorem second_submit_sends_nothing (p : Props) (s : StudyRoomState) :
  (sendMessage p (sendMessage p s).1).2 = [].
Proof.
  destruct (decide (JS.trim (newMessage s) = "")) as [Ht|Ht].
  { rewrite (sendMessage_silent p s) by (by left). cbn [fst].
    by rewrite sendMessage_silent by (by left). }
  destruct (socket p) as [k|] eqn:Hk.
  - rewrite (sendMessage_emits p s Ht) by eauto. cbn [fst].
    by rewrite sendMessage_silent; [|left].
  - rewrite (sendMessage_silent p s) by (by right). cbn [fst].
    by rewrite sendMessage_silent by (by right).
Qed.

(** X9: the join effect registers the listeners exactly when it has sent
    [join_room], and it sends it exactly when there are a socket, a user and
    a non-empty room id; it then sends one [join_room] with that user and
    room id. *)
Theorem joinEffect_joins_iff_listening (p : Props) :
  ((joinEffect p).2 = true ↔ (joinEffect p).1 ≠ [])
  ∧ ((joinEffect p).1 ≠ []
     ↔ is_Some (socket p) ∧ is_Some (user p) ∧ roomId p ≠ "")
  ∧ ∀ u, user p = Some u → (joinEffect p).1 ≠ [] →
         (joinEffect p).1 = [join_room (roomId p) u].
Proof.
  unfold joinEffect.
  destruct (socket p) as [k|]; [destruct (user p) as [u|]|]; simpl.
  - destruct (JS.truthy (roomId p)) eqn:Hr; simpl.
    + apply truthy_nonempty in Hr. split; [by split|]. split; [by eauto|].
      by intros u' [= ->].
    + assert (roomId p = "") as Hempty by (by destruct (roomId p)).
      split; [by split|]. split; [|done]. split; [done|]. by intros (_ & _ & ?).
  - split; [by split|]. split; [|done]. split; [done|].
    by intros (_ & ?%is_Some_None & _).
  - split; [by split|]. split; [|done]. split; [done|].
    by intros (?%is_Some_None & _).
Qed.

Lemma joinEffect_joins_iff_listening_witness :
  (joinEffect connected).1 = [join_room (roomId connected) ada].
Proof.
  apply (proj2 (proj2 (joinEffect_joins_iff_listening connected)) ada).
  - reflexivity.
  - discriminate.
Defined.

End SentMessages.

(** ** Drawing a stroke *)

Section Strokes.

Import StudyRoom.

Lemma drawAll_acc (p : Props) (rect : DOMRect) (es : list MouseEvent)
    (s : StudyRoomState) (acc : list ClientEvent) :
  fold_left
    (fun acc e => let '(s', evs) := draw p rect e acc.1 in (s', acc.2 ++ evs))
    es (s, acc)
  = ((drawAll p rect es s).1, acc ++ (drawAll p rect es s).2).
Proof.
  unfold drawAll. revert s acc. induction es as [|e es IH]; intros s acc; simpl.
  - by rewrite app_nil_r.
  - destruct (draw p rect e s) as [s' evs]. simpl.
    rewrite (IH s' (acc ++ evs)), (IH s' evs). by rewrite <- app_assoc.
Qed.

Lemma drawAll_cons (p : Props) (rect : DOMRect) (e : MouseEvent)
    (es : list MouseEvent) (s : StudyRoomState) :
  drawAll p rect (e :: es) s
  = ((drawAll p rect es (draw p rect e s).1).1,
     (draw p rect e s).2 ++ (drawAll p rect es (draw p rect e s).1).2).
Proof.
  unfold drawAll at 1. simpl. destruct (draw p rect e s) as [s' evs]. simpl.
  apply drawAll_acc.
Qed.

Lemma draw_pen_down (p : Props) (rect : DOMRect) (e : MouseEvent)
    (s : StudyRoomState) (ctx : Context2D) :
  isDrawing s = true → canvasRef s = Some ctx →
  isDrawing (draw p rect e s).1 = true
  ∧ canvasRef (draw p rect e s).1 = Some (redraw (strokeOf rect e) ctx)
  ∧ (draw p rect e s).2
    = match socket p with
      | Some _ => [drawing_data (roomId p) (strokeOf rect e)]
      | None => []
      end.
Proof. intros Hd Hc. unfold draw. rewrite Hd, Hc. simpl. by destruct (socket p). Qed.

Lemma drawAll_pen_down (p : Props) (rect : DOMRect) (es : list MouseEvent)
    (s : StudyRoomState) (ctx : Context2D) :
  isDrawing s = true → canvasRef s = Some ctx →
  (drawAll p rect es s).2
  = match socket p with
    | Some _ => (λ e, drawing_data (roomId p) (strokeOf rect e)) <$> es
    | None => []
    end
  ∧ isDrawing (drawAll p rect es s).1 = true
  ∧ ∃ ctx',
      canvasRef (drawAll p rect es s).1 = Some ctx'
      ∧ path ctx'
        = path ctx ++ ((λ e, LineTo (pointOf rect e).1 (pointOf rect e).2) <$> es)
      ∧ painted_style <$> raster ctx'
        = (painted_style <$> raster ctx) ++ replicate (length es) "#000"
      ∧ painted_width <$> raster ctx'
        = (painted_width <$> raster ctx) ++ replicate (length es) 2%float.
Proof.
  revert s ctx. induction es as [|e es IH]; intros s ctx Hd Hc.
  - split; [by destruct (socket p)|]. split; [done|]. exists ctx. simpl.
    by rewrite !app_nil_r.
  - destruct (draw_pen_down p rect e s ctx Hd Hc) as (Hd' & Hc' & Hev).
    destruct (IH _ _ Hd' Hc') as (Hevs & Hdown & ctx' & Hctx' & Hp & Hst & Hw).
    rewrite drawAll_cons. cbn [fst snd]. rewrite Hev, Hevs.
    split; [by destruct (socket p)|]. split; [done|].
    exists ctx'. split; [done|]. rewrite Hp, Hst, Hw. simpl.
    rewrite !fmap_app. simpl. by rewrite <- !app_assoc.
Qed.

(** X10: pressing the button on the canvas and moving the mouse paints one
    path, a move to the first point and a line to each later point in order,
    always in "#000" and width 2 whatever was received before; with a socket
    it emits one [drawing_data] per move, in order, each with the point just
    painted, and without one it paints the same and emits nothing. *)
Theorem stroke_painted_and_emitted_in_order (p : Props) (rect : DOMRect)
    (e0 : MouseEvent) (es : list MouseEvent) (s : StudyRoomState) (ctx : Context2D) :
  canvasRef s = Some ctx →
  let r := drawAll p rect es (startDrawing rect e0 s) in
  r.2 = match socket p with
        | Some _ => (λ e, drawing_data (roomId p) (strokeOf rect e)) <$> es
        | None => []
        end
  ∧ ∃ ctx',
      canvasRef r.1 = Some ctx'
      ∧ path ctx'
        = MoveTo (pointOf rect e0).1 (pointOf rect e0).2
          :: ((λ e, LineTo (pointOf rect e).1 (pointOf rect e).2) <$> es)
      ∧ painted_style <$> raster ctx'
        = (painted_style <$> raster ctx) ++ replicate (length es) "#000"
      ∧ painted_width <$> raster ctx'
        = (painted_width <$> raster ctx) ++ replicate (length es) 2%float.
Proof.
  intros Hc. simpl.
  destruct (drawAll_pen_down p rect es (startDrawing rect e0 s)
              (Ctx.moveTo (pointOf rect e0).1 (pointOf rect e0).2 (Ctx.beginPath ctx)))
    as (Hevs & _ & ctx' & Hctx' & Hp & Hst & Hw).
  - unfold startDrawing. by destruct (canvasRef s).
  - unfold startDrawing. by rewrite Hc.
  - split; [done|]. by exists ctx'.
Qed.

Lemma stroke_painted_and_emitted_in_order_witness :
  let rect := {| rect_left := 10%float; rect_top := 5%float |} in
  let e0 := {| clientX := 12%float; clientY := 9%float |} in
  let e1 := {| clientX := 30%float; clientY := 45%float |} in
  let e2 := {| clientX := 31%float; clientY := 47%float |} in
  let r := drawAll connected rect [e1; e2]
             (startDrawing rect e0 (setActiveTab whiteboard_tab initial)) in
  r.2 = (λ e, drawing_data "r1" (strokeOf rect e)) <$> [e1; e2]
  ∧ ∃ ctx',
      canvasRef r.1 = Some ctx'
      ∧ path ctx'
        = MoveTo (pointOf rect e0).1 (pointOf rect e0).2
          :: ((λ e, LineTo (pointOf rect e).1 (pointOf rect e).2) <$> [e1; e2])
      ∧ painted_style <$> raster ctx' = [] ++ replicate 2 "#000"
      ∧ painted_width <$> raster ctx' = [] ++ replicate 2 2%float.
Proof.
  intros rect e0 e1 e2.
  apply (stroke_painted_and_emitted_in_order connected rect e0 [e1; e2]
           (setActiveTab whiteboard_tab initial) Ctx.fresh).
  reflexivity.
Defined.

Lemma draw_pen_up (p : Props) (rect : DOMRect) (e : MouseEvent) (s : StudyRoomState) :
  isDrawing s = false → draw p rect e s = (s, []).
Proof. intros Hd. unfold draw. by rewrite Hd. Qed.

(** X11: once the button is released or the pointer has left the canvas
    ([stopDrawing]), mouse moves paint nothing, emit nothing and change no
    state, however many there are; the same holds in a room where the button
    was never pressed. *)
Theorem moves_without_button_do_nothing (p : Props) (rect : DOMRect)
    (es : list MouseEvent) (s : StudyRoomState) :
  drawAll p rect es (stopDrawing s) = (stopDrawing s, [])
  ∧ drawAll p rect es initial = (initial, []).
Proof.
  assert (∀ s0, isDrawing s0 = false → drawAll p rect es s0 = (s0, [])) as Hup.
  { intros s0 Hd. induction es as [|e es IH]; [done|].
    rewrite drawAll_cons, (draw_pen_up p rect e s0 Hd). cbn [fst snd].
    by rewrite IH. }
  split; by apply Hup.
Qed.

Lemma renderEach_shown (toUpperCase : string → string) (users : list RosterEntry) :
  Forall (λ u, entry_username u ≠ "") users →
  ∃ shown,
    renderEach toUpperCase users = JS.Normal shown
    ∧ avatar_text <$> shown
      = (λ u, toUpperCase (initialOf (entry_username u))) <$> users.
Proof.
  induction 1 as [|user rest Hname _ (shown & Hshown & Htext)]; [by exists []|].
  simpl. unfold avatar. destruct (entry_username user) as [|c name] eqn:Hc; [done|].
  simpl. rewrite Hshown. simpl. eexists. split; [reflexivity|].
  rewrite !fmap_cons, Htext. simpl. by rewrite ?Hc.
Qed.

Lemma renderEach_throws (toUpperCase : string → string) (users : list RosterEntry) :
  Exists (λ u, entry_username u = "") users →
  renderEach toUpperCase users = JS.Throw JS.TypeError.
Proof.
  induction users as [|user rest IH]; intros Hex.
  - by apply Exists_nil in Hex.
  - simpl. unfold avatar. destruct (entry_username user) as [|c name] eqn:Hc; [done|].
    simpl. apply Exists_cons in Hex as [Hhead|Hrest]; [congruence|].
    by rewrite (IH Hrest).
Qed.

(** X12: the header counts every roster entry and renders avatars for the
    first five only.  When those all have a non-empty username it shows
    exactly them, in the server's order, each keyed by [socket_id], titled
    by [username] and showing the upper-cased first character of the
    username; when one of them has an empty username the render throws a
    TypeError; entries after the fifth are never rendered and cannot make it
    throw. *)
Theorem avatars_are_first_five (toUpperCase : string → string) (s : StudyRoomState) :
  (Forall (λ u, entry_username u ≠ "") (take 5 (connectedUsers s)) →
   ∃ shown,
     avatars toUpperCase s = JS.Normal shown
     ∧ length shown = min 5 (onlineCount s)
     ∧ avatar_key <$> shown = take 5 (socket_id <$> connectedUsers s)
     ∧ avatar_title <$> shown = take 5 (entry_username <$> connectedUsers s)
     ∧ avatar_text <$> shown
       = (λ u, toUpperCase (initialOf (entry_username u)))
         <$> take 5 (connectedUsers s))
  ∧ (Exists (λ u, entry_username u = "") (take 5 (connectedUsers s)) →
     avatars toUpperCase s = JS.Throw JS.TypeError)
  ∧ avatars toUpperCase s
    = avatars toUpperCase (setConnectedUsers (take 5 (connectedUsers s)) s).
Proof.
  unfold avatars, onlineCount. split; [|split].
  - intros Hnames. destruct (renderEach_shown toUpperCase _ Hnames) as (shown & Hshown & Htext).
    destruct (renderEach_keys toUpperCase _ _ Hshown) as [Hkeys Htitles].
    exists shown. split; [done|]. split.
    { rewrite <- (length_fmap avatar_key), Hkeys, length_fmap, length_take. lia. }
    by rewrite Hkeys, Htitles, Htext, !fmap_take.
  - apply renderEach_throws.
  - simpl. by rewrite take_take.
Qed.

End Strokes.

(** ** Logging in and out *)

Section Sessions.

Variable JSON_stringify : User → string.

Lemma logout_storage (m : gmap string string) (a b : string) :
  delete "user" (delete "token" (<["user" := a]> (<["token" := b]> m)))
  = delete "user" (delete "token" m).
Proof.
  apply map_eq. intros key.
  destruct (decide (key = "user")) as [->|Hu]; [by rewrite !lookup_delete_eq|].
  rewrite !(lookup_delete_ne _ "user") by done.
  destruct (decide (key = "token")) as [->|Ht]; [by rewrite !lookup_delete_eq|].
  rewrite !(lookup_delete_ne _ "token") by done.
  by rewrite !lookup_insert_ne.
Qed.

(** X13: a successful login stores the answered token and the serialized
    user under "token" and "user" and sets both cells; a logout after it
    leaves exactly what a logout without it would have left, is idempotent,
    and neither touches any other key of [localStorage]. *)
Theorem logout_undoes_login (s : AuthProvider.State) (access_token : string)
    (userData : User) :
  let s1 := (AuthProvider.login JSON_stringify
               (JS.Normal (access_token, userData)) s).1 in
  AuthProvider.localStorage s1 !! "token" = Some access_token
  ∧ AuthProvider.localStorage s1 !! "user" = Some (JSON_stringify userData)
  ∧ AuthProvider.token s1 = Some access_token
  ∧ AuthProvider.user s1 = Some userData
  ∧ AuthProvider.logout s1 = AuthProvider.logout s
  ∧ AuthProvider.logout (AuthProvider.logout s) = AuthProvider.logout s
  ∧ ∀ key : string, key ≠ "token" → key ≠ "user" →
      AuthProvider.localStorage s1 !! key = AuthProvider.localStorage s !! key
      ∧ AuthProvider.localStorage (AuthProvider.logout s1) !! key
        = AuthProvider.localStorage s !! key.
Proof.
  simpl. split; [by rewrite lookup_insert_ne, lookup_insert_eq|].
  split; [by rewrite lookup_insert_eq|]. split; [done|]. split; [done|].
  unfold AuthProvider.logout. simpl. split; [by rewrite logout_storage|].
  split.
  { f_equal. apply map_eq. intros key.
    destruct (decide (key = "user")) as [->|Hu]; [by rewrite !lookup_delete_eq|].
    rewrite !(lookup_delete_ne _ "user") by done.
    destruct (decide (key = "token")) as [->|Ht]; [by rewrite !lookup_delete_eq|].
    by rewrite !lookup_delete_ne by done. }
  intros key Ht Hu. rewrite logout_storage.
  by rewrite !lookup_insert_ne, !lookup_delete_ne.
Qed.

(** X14: [handleSubmit] always ends with [loading] off.  When the request
    fails, the form shows a message that is never empty (the server's
    [detail] when it sent a non-empty one, else the fallback of the mode),
    nothing is navigated to and the AuthProvider keeps its state; when it
    succeeds the message is empty, the user and token are the answered ones
    and the client navigates to the dashboard. *)
Theorem submit_outcomes (server : Login.Request → JS.Completion (string * User))
    (s : Login.State) (a : AuthProvider.State) :
  let r := Login.handleSubmit JSON_stringify server s a in
  let s' := r.1.1 in
  let a' := r.1.2 in
  let nav := r.2 in
  Login.loading s' = false
  ∧ match server (Login.request s) with
    | JS.Normal (access_token, userData) =>
        Login.error s' = "" ∧ nav = Some "/dashboard"
        ∧ AuthProvider.user a' = Some userData
        ∧ AuthProvider.token a' = Some access_token
    | JS.Throw e =>
        Login.error s' ≠ "" ∧ nav = None ∧ a' = a
        ∧ (∀ detail, e = JS.HttpError (Some detail) → detail ≠ "" →
             Login.error s' = detail)
        ∧ ((∀ detail, e = JS.HttpError (Some detail) → detail = "") →
             Login.error s'
             = if Login.isRegistering s then "Registration failed" else "Login failed")
    end.
Proof.
  unfold Login.handleSubmit, AuthProvider.register.
  destruct (server (Login.request s)) as [[tok u]|e]; simpl.
  - split; [done|]. by destruct (Login.isRegistering s).
  - split; [done|]. split.
    { unfold Login.detailOr. destruct e as [| | |[d|]]; try by destruct (Login.isRegistering s).
      destruct (JS.truthy d) eqn:Hd; [by apply truthy_nonempty|].
      by destruct (Login.isRegistering s). }
    split; [done|]. split; [by destruct (Login.isRegistering s)|]. split.
    + intros d -> Hd. simpl. apply truthy_nonempty in Hd. by rewrite Hd.
    + intros Hno. destruct e as [| | |[d|]]; try done. by rewrite (Hno d eq_refl).
Qed.

End Sessions.

Lemma logout_undoes_login_witness :
  let s1 := (AuthProvider.login stringify_id (JS.Normal ("tok", ada))
               (AuthProvider.initial {[ "theme" := "dark" ]})).1 in
  AuthProvider.localStorage s1 !! "theme" = Some "dark"
  ∧ AuthProvider.localStorage (AuthProvider.logout s1) !! "theme" = Some "dark".
Proof.
  pose proof (logout_undoes_login stringify_id
                (AuthProvider.initial {[ "theme" := "dark" ]}) "tok" ada)
    as (_ & _ & _ & _ & _ & _ & Hother).
  apply (Hother "theme"); discriminate.
Defined.

Lemma submit_outcomes_witness :
  Login.error (Login.handleSubmit stringify_id rejects Login.initial
                 (AuthProvider.initial ∅)).1.1
  = "Invalid credentials".
Proof.
  pose proof (submit_outcomes stringify_id rejects Login.initial
                (AuthProvider.initial ∅)) as H.
  unfold rejects in H. destruct H as (_ & _ & _ & _ & Hdetail & _).
  apply (Hdetail "Invalid credentials"); [reflexivity|discriminate].
Defined.

(** ** The app without a user *)

Section LoggedOut.

Variable jwtDecode : string → JS.Completion AuthProvider.Decoded.
Variable JSON_parse : string → JS.Completion User.
Variable JSON_stringify : User → string.

Local Abbreviation handle' := (App.handle jwtDecode JSON_parse JSON_stringify).
Local Abbreviation step' := (App.step jwtDecode JSON_parse JSON_stringify).
Local Abbreviation run' := (App.run jwtDecode JSON_parse JSON_stringify).

Lemma redirect_auth (s : App.State) : App.auth (App.redirect s) = App.auth s.
Proof.
  unfold App.redirect. destruct (App.route s); [done| |];
    by destruct (AuthProvider.user (App.auth s)).
Qed.

Lemma logged_out_unmounted (s : App.State) :
  AuthProvider.user (App.auth s) = None → App.mounted s = None.
Proof.
  intros Hu. unfold App.mounted, App.PrivateRoute. rewrite Hu.
  by destruct (App.route s).
Qed.

Lemma handle_silent_logged_out (s : App.State) (a : App.Action) :
  AuthProvider.user (App.auth s) = None → (handle' s a).2 = [].
Proof.
  intros Hu. destruct ((handle' s a).2) as [|ev evs] eqn:Hevs; [done|].
  destruct (handle_authenticated jwtDecode JSON_parse JSON_stringify s a ev)
    as (u & _ & Hsome & _).
  - rewrite Hevs. apply list_elem_of_here.
  - simpl in Hsome. congruence.
Qed.

Lemma handle_stays_logged_out (s : App.State) (a : App.Action) :
  AuthProvider.user (App.auth s) = None → logsIn a = false →
  AuthProvider.user (App.auth (handle' s a).1) = None.
Proof.
  intros Hu Ha. pose proof (logged_out_unmounted s Hu) as Hm.
  destruct a; simpl; unfold App.inRoom; rewrite ?Hm; try done.
  - by destruct (tokenEffect_user jwtDecode JSON_parse now (App.auth s)) as [H | ->].
  - by destruct response.
Qed.

Lemma step_logged_out (s : App.State) (a : App.Action) :
  AuthProvider.user (App.auth s) = None → logsIn a = false →
  AuthProvider.user (App.auth (step' s a).1) = None ∧ (step' s a).2 = [].
Proof.
  intros Hu Ha. unfold App.step.
  pose proof (handle_silent_logged_out s a Hu) as Hsilent.
  pose proof (handle_stays_logged_out s a Hu Ha) as Hstay.
  destruct (handle' s a) as [s' evs]. simpl in *. by rewrite redirect_auth.
Qed.

(** X15: from a state without a user, whatever the app is made to do,
    nothing is ever emitted until the server answers a login or a
    registration with success. *)
Theorem nothing_emitted_before_login (s : App.State) (acts : list App.Action) :
  AuthProvider.user (App.auth s) = None →
  Forall (λ a, logsIn a = false) acts →
  run' s acts = [].
Proof.
  intros Hu Hacts. revert s Hu. induction Hacts as [|a acts Ha _ IH]; intros s Hu.
  - done.
  - simpl. destruct (step_logged_out s a Hu Ha) as [Hu' Hev].
    destruct (step' s a) as [s' evs]. simpl in *. subst evs. by apply IH.
Qed.

(** X16: a page load always lands on the login page with no user and no
    room on screen, whatever route is loaded and whatever session is stored;
    the token effect that follows keeps it so and, when a non-empty token
    was stored, erases the stored token and user. *)
Theorem page_load_lands_on_login (s : App.State) (r : App.Route) (now : float) :
  let s1 := (step' s (App.Load r)).1 in
  let s2 := (step' s1 (App.RunTokenEffect now)).1 in
  App.route s1 = App.LoginPage
  ∧ AuthProvider.user (App.auth s1) = None
  ∧ App.mounted s1 = None
  ∧ App.route s2 = App.LoginPage
  ∧ AuthProvider.user (App.auth s2) = None
  ∧ ∀ t : string,
      AuthProvider.localStorage (App.auth s) !! "token" = Some t → t ≠ "" →
      AuthProvider.localStorage (App.auth s2) !! "token" = None
      ∧ AuthProvider.localStorage (App.auth s2) !! "user" = None.
Proof.
  set (stored := AuthProvider.localStorage (App.auth s)).
  assert ((step' s (App.Load r)).1
          = App.initial stored App.LoginPage) as Hload.
  { unfold App.step. simpl. unfold App.redirect. simpl. by destruct r. }
  cbv zeta. rewrite Hload. unfold App.step. simpl.
  pose proof (tokenEffect_user jwtDecode JSON_parse now (AuthProvider.initial stored))
    as Huser.
  split; [done|]. split; [done|]. split; [done|].
  set (eff := AuthProvider.tokenEffect jwtDecode JSON_parse now
                (AuthProvider.initial stored)) in *.
  assert (AuthProvider.user eff.2 = None) as Hnone.
  { by destruct Huser as [H | ->]. }
  split; [|split].
  - done.
  - done.
  - intros t Ht Hne. subst eff.
    rewrite (tokenEffect_catches jwtDecode JSON_parse now (AuthProvider.initial stored) t Ht Hne).
    simpl. split; [|apply lookup_delete_eq].
    rewrite lookup_delete_ne by done. apply lookup_delete_eq.
Qed.

End LoggedOut.

Lemma nothing_emitted_before_login_witness :
  App.run decodes_until_2100 parses_ada stringify_id
    (App.initial stored_session (App.RoomPage "r1"))
    [App.RunTokenEffect 1700000000000%float; App.RunSocketEffect;
     App.Navigate (App.RoomPage "r1"); App.RunJoinEffect;
     App.TypeMessage "hi"; App.SendMessage;
     App.LoginAnswer (JS.Throw (JS.HttpError None)); App.NotesChange "x"]
  = [].
Proof.
  apply nothing_emitted_before_login.
  - reflexivity.
  - repeat constructor.
Defined.

Lemma page_load_lands_on_login_witness :
  let s0 := (App.step decodes_until_2100 parses_ada stringify_id
               (App.initial ∅ App.LoginPage)
               (App.LoginAnswer (JS.Normal ("tok", ada)))).1 in
  let s1 := (App.step decodes_until_2100 parses_ada stringify_id s0
               (App.Load App.DashboardPage)).1 in
  let s2 := (App.step decodes_until_2100 parses_ada stringify_id s1
               (App.RunTokenEffect 1700000000000%float)).1 in
  AuthProvider.localStorage (App.auth s2) !! "token" = None
  ∧ AuthProvider.localStorage (App.auth s2) !! "user" = None.
Proof.
  intros s0 s1 s2.
  pose proof (page_load_lands_on_login decodes_until_2100 parses_ada stringify_id
                s0 App.DashboardPage 1700000000000%float)
    as (_ & _ & _ & _ & _ & Hclear).
  apply (Hclear "tok"); [reflexivity|discriminate].
Defined.

(** ** The sockets of the SocketProvider *)

Section Sockets.

Lemma socketsMade_S (k : SocketProvider.State) (n : nat) :
  SocketProvider.created k = S n →
  socketsMade k = ((λ i, {| socket_no := i |}) <$> seq 0 n) ++ [{| socket_no := n |}].
Proof. unfold socketsMade. intros ->. by rewrite seq_S, fmap_app. Qed.

Lemma cleanup_accounted (k : SocketProvider.State) :
  accounted k →
  SocketProvider.closed (SocketProvider.cleanup k) = socketsMade k
  ∧ SocketProvider.socket (SocketProvider.cleanup k) = last (socketsMade k)
  ∧ SocketProvider.pending (SocketProvider.cleanup k) = None
  ∧ SocketProvider.created (SocketProvider.cleanup k) = SocketProvider.created k.
Proof.
  unfold accounted, SocketProvider.cleanup. intros [Hall Hcell].
  destruct (SocketProvider.pending k) as [sk|] eqn:Hpend; simpl in *.
  - done.
  - rewrite app_nil_r in Hall. by rewrite Hpend.
Qed.

Lemma effect_accounted (u : option User) (k : SocketProvider.State) :
  accounted k → accounted (SocketProvider.effect u k).
Proof.
  intros Hk. destruct (cleanup_accounted k Hk) as (Hclosed & Hcell & Hp & Hc).
  unfold accounted, SocketProvider.effect. destruct u as [u|]; simpl.
  - rewrite !(socketsMade_S _ (SocketProvider.created (SocketProvider.cleanup k)))
      by done.
    rewrite Hc. fold (socketsMade k). rewrite Hclosed. by rewrite last_snoc.
  - rewrite Hp, Hclosed, Hcell. simpl. rewrite app_nil_r.
    unfold socketsMade. by rewrite Hc.
Qed.

Lemma effects_accounted (users : list (option User)) (k : SocketProvider.State) :
  accounted k → accounted (effects users k).
Proof.
  revert k. induction users as [|u users IH]; intros k Hk; [done|].
  apply IH. by apply effect_accounted.
Qed.

Lemma socketsMade_NoDup (k : SocketProvider.State) : NoDup (socketsMade k).
Proof.
  unfold socketsMade. apply NoDup_fmap_2; [|apply NoDup_seq].
  by intros i j [= ->].
Qed.

(** X17: however often the SocketProvider's effect runs and whatever
    [user] is at each run, the sockets closed so far followed by the socket
    still open, if any, are exactly the sockets made, in the order made: at
    most one socket, the latest, is open; every earlier one has been closed,
    once; and the cell holds the latest socket made. *)
Theorem at_most_one_socket_open (users : list (option User)) :
  let k := effects users SocketProvider.initial in
  SocketProvider.closed k ++ option_list (SocketProvider.pending k) = socketsMade k
  ∧ SocketProvider.socket k = last (socketsMade k)
  ∧ NoDup (SocketProvider.closed k)
  ∧ length (SocketProvider.closed k) + length (option_list (SocketProvider.pending k))
    = SocketProvider.created k.
Proof.
  simpl. destruct (effects_accounted users SocketProvider.initial) as [Hall Hcell].
  { by split. }
  split; [done|]. split; [done|]. split.
  - pose proof (socketsMade_NoDup (effects users SocketProvider.initial)) as Hnd.
    rewrite <- Hall in Hnd. by apply NoDup_app in Hnd as (? & _ & _).
  - rewrite <- length_app, Hall. unfold socketsMade.
    by rewrite length_fmap, length_seq.
Qed.

(** X18: when the user goes away, the effect closes the socket made for
    them but leaves it in the [socket] cell: after a run with a user and a
    run without, the cell still holds that socket, which is closed, and the
    run without a user makes no new one. *)
Theorem closed_socket_stays_in_cell (u : User) (k : SocketProvider.State) :
  let made := {| socket_no := SocketProvider.created k |} in
  let k' := SocketProvider.effect None (SocketProvider.effect (Some u) k) in
  SocketProvider.socket k' = Some made
  ∧ made ∈ SocketProvider.closed k'
  ∧ SocketProvider.pending k' = None
  ∧ SocketProvider.created k' = S (SocketProvider.created k).
Proof.
  simpl. unfold SocketProvider.effect, SocketProvider.cleanup.
  destruct (SocketProvider.pending k); simpl;
    (split; [done|]; split; [|done]);
    apply elem_of_app; right; apply list_elem_of_here.
Qed.

End Sockets.

(** ** Typing a join code *)

Section Typing.

Lemma upper_char (c : ascii) :
  Latin.isAscii c = true →
  Latin.isAscii (Latin.upper c) = true ∧ Latin.upper (Latin.upper c) = Latin.upper c.
Proof.
  destruct c as [[] [] [] [] [] [] [] []]; vm_compute; intros H;
    try discriminate H; by split.
Qed.

Lemma toUpperCase_app (a b : string) :
  Latin.toUpperCase (a +:+ b) = Latin.toUpperCase a +:+ Latin.toUpperCase b.
Proof.
  unfold Latin.toUpperCase. induction a as [|c a IH]; simpl; [done|]. by rewrite IH.
Qed.

Lemma all_ascii_app (a b : string) :
  Latin.all Latin.isAscii (a +:+ b)
  = Latin.all Latin.isAscii a && Latin.all Latin.isAscii b.
Proof. induction a as [|c a IH]; simpl; [done|]. by rewrite IH, andb_assoc. Qed.

Lemma string_app_assoc (a b c : string) : (a +:+ b) +:+ c = a +:+ (b +:+ c).
Proof.
  induction a as [|x a IH]; [done|].
  change (String x ((a +:+ b) +:+ c) = String x (a +:+ (b +:+ c))). by rewrite IH.
Qed.

Lemma string_app_empty (a : string) : a +:+ "" = a.
Proof.
  induction a as [|x a IH]; [done|].
  change (String x (a +:+ "") = String x a). by rewrite IH.
Qed.

Variable toUpperCase : string → string.
Hypothesis toUpperCase_latin :
  ∀ v, Latin.all Latin.isAscii v = true → toUpperCase v = Latin.toUpperCase v.

Lemma typeChars_cons (c : ascii) (typed : string) (s : Dashboard.State) :
  typeChars toUpperCase (String c typed) s
  = typeChars toUpperCase typed
      (Dashboard.onRoomCodeChange toUpperCase
         (Dashboard.roomCode s +:+ String c "") s).
Proof. reflexivity. Qed.

Lemma typeChars_from (typed : string) (s : Dashboard.State) :
  Latin.all Latin.isAscii typed = true →
  Latin.all Latin.isAscii (Dashboard.roomCode s) = true →
  Latin.toUpperCase (Dashboard.roomCode s) = Dashboard.roomCode s →
  Dashboard.roomCode (typeChars toUpperCase typed s)
  = Dashboard.roomCode s +:+ Latin.toUpperCase typed.
Proof.
  revert s. induction typed as [|c typed IH]; intros s Htyped Hascii Hfixed.
  - simpl. by rewrite string_app_empty.
  - simpl in Htyped. apply andb_true_iff in Htyped as [Hc Htyped].
    destruct (upper_char c Hc) as [Hup Hidem].
    rewrite typeChars_cons.
    set (s' := Dashboard.onRoomCodeChange toUpperCase
                 (Dashboard.roomCode s +:+ String c "") s).
    assert (Dashboard.roomCode s' = Dashboard.roomCode s +:+ String (Latin.upper c) "")
      as Hs'.
    { subst s'. simpl. rewrite toUpperCase_latin.
      - by rewrite toUpperCase_app, Hfixed.
      - rewrite all_ascii_app, Hascii. simpl. by rewrite Hc. }
    rewrite (IH s' Htyped).
    + rewrite Hs', string_app_assoc. done.
    + rewrite Hs', all_ascii_app, Hascii. simpl. by rewrite Hup.
    + rewrite Hs', toUpperCase_app, Hfixed. unfold Latin.toUpperCase. simpl.
      by rewrite Hidem.
Qed.

(** X19: typing a code of Basic Latin characters into the empty join-room
    field one character at a time, each change event carrying the field's
    upper-cased value with the new character at its end, stores the
    upper-case form of the whole typed text, as one change event with the
    whole text would. *)
Theorem typing_stores_uppercase (typed : string) (s : Dashboard.State) :
  Latin.all Latin.isAscii typed = true →
  Dashboard.roomCode (typeChars toUpperCase typed (Dashboard.setRoomCode "" s))
  = Latin.toUpperCase typed
  ∧ Dashboard.roomCode (typeChars toUpperCase typed (Dashboard.setRoomCode "" s))
    = Dashboard.roomCode (Dashboard.onRoomCodeChange toUpperCase typed s).
Proof.
  intros Htyped. rewrite typeChars_from; try done. simpl.
  by rewrite toUpperCase_latin.
Qed.

End Typing.

Lemma typing_stores_uppercase_witness :
  Dashboard.roomCode
    (typeChars Latin.toUpperCase "k3f9q2" (Dashboard.setRoomCode "" Dashboard.initial))
  = Latin.toUpperCase "k3f9q2"
  ∧ Dashboard.roomCode
      (typeChars Latin.toUpperCase "k3f9q2" (Dashboard.setRoomCode "" Dashboard.initial))
    = Dashboard.roomCode
        (Dashboard.onRoomCodeChange Latin.toUpperCase "k3f9q2" Dashboard.initial).
Proof.
  apply (typing_stores_uppercase Latin.toUpperCase (λ v _, eq_refl) "k3f9q2"
           Dashboard.initial).
  reflexivity.
Defined.

Lemma avatars_are_first_five_witness :
  (∃ shown,
     StudyRoom.avatars Latin.toUpperCase
       (StudyRoom.setConnectedUsers roster_of_seven StudyRoom.initial) = JS.Normal shown
     ∧ length shown = min 5 7
     ∧ StudyRoom.avatar_text <$> shown = ["A"; "B"; "C"; "D"; "E"])
  ∧ StudyRoom.avatars Latin.toUpperCase
      (StudyRoom.setConnectedUsers roster_with_blank StudyRoom.initial)
    = JS.Throw JS.TypeError.
Proof.
  split.
  - destruct (proj1 (avatars_are_first_five Latin.toUpperCase
                       (StudyRoom.setConnectedUsers roster_of_seven StudyRoom.initial)))
      as (shown & Hshown & Hlen & _ & _ & Htext).
    + repeat constructor; discriminate.
    + exists shown. split; [exact Hshown|]. split; [exact Hlen|]. exact Htext.
  - apply (proj1 (proj2 (avatars_are_first_five Latin.toUpperCase
                           (StudyRoom.setConnectedUsers roster_with_blank
                              StudyRoom.initial)))).
    apply Exists_cons_tl, Exists_cons_hd. reflexivity.
Defined.
